(** * uvstart engine: backend registry, detection and command dispatch

    A shallow embedding of [src/engine/backend_config.{hpp,cpp}] and
    [src/engine/engine.{hpp,cpp}], followed by the properties of the
    natural-language specification that were checked against it.

    Modelling choices.
    - [std::string] is [string]; [std::vector<std::string>] is [list string];
      [int] is [Z].
    - [std::map<std::string, std::unique_ptr<BackendConfig>>] is a list of
      (key, value) pairs kept in strictly ascending key order, the order in
      which a range-for over the map visits it; [operator[]] followed by
      assignment is [map_assign], [find] is [map_find].
    - The operating system (file status, file contents, recursive removal,
      [popen]/[fgets]/[pclose]) is a [Platform]; every theorem is stated for
      an arbitrary platform.  Each call of a primitive is recorded in a
      trace, which is how "no subprocess is started" or "the manifest is read
      once" are stated.
    - C++ exceptions are the [Raise] constructor of [outcome]. *)

From Stdlib Require Import List String Ascii ZArith Bool Lia.
From Stdlib Require Import Sorted RelationClasses OrdersEx.
Import ListNotations.
Local Open Scope list_scope.
Local Open Scope string_scope.

Set Implicit Arguments.

(* ================================================================= *)
(** ** Strings *)

(** The two characters that cannot be written inside a string literal
    conveniently: the double quote and the line feed. *)
Definition dquote : string := String "034"%char EmptyString.
Definition nl : string := String "010"%char EmptyString.

(** [s.empty()] *)
Definition empty (s : string) : bool :=
  match s with
  | EmptyString => true
  | String _ _ => false
  end.

(** [s.find(pat)]: position of the first occurrence, [None] for [npos]. *)
Definition find (pat s : string) : option nat := String.index 0 pat s.

(** [s.find(pat) != std::string::npos] *)
Definition found (pat s : string) : bool :=
  match find pat s with
  | Some _ => true
  | None => false
  end.

(** ASCII lower-casing, used only to compare message texts up to case. *)
Definition lower_ascii (c : ascii) : ascii :=
  let n := nat_of_ascii c in
  if (Nat.leb 65 n && Nat.leb n 90)%bool then ascii_of_nat (n + 32) else c.

Fixpoint lowercase (s : string) : string :=
  match s with
  | EmptyString => EmptyString
  | String c s' => String (lower_ascii c) (lowercase s')
  end.

(* ================================================================= *)
(** ** backend_config.hpp: [BackendConfig] *)

Record BackendConfig := mkBackendConfig {
  name : string;
  detection_files : list string;
  detection_patterns : list string;
  install_url : string;
  add_cmd : list string;
  add_dev_cmd : list string;
  remove_cmd : list string;
  sync_cmd : list string;
  sync_dev_cmd : list string;
  run_cmd : list string;
  list_cmd : list string;
  version_cmd : list string;
  clean_files : list string
}.

(* ================================================================= *)
(** ** backend_config.cpp: [BackendRegistry] *)

(** The ordered map [backends_], as the sequence a range-for visits. *)
Definition BackendRegistry := list (string * BackendConfig).

(** [m[key] = value] on an ordered map. *)
Fixpoint map_assign (key : string) (value : BackendConfig)
    (m : BackendRegistry) : BackendRegistry :=
  match m with
  | [] => [(key, value)]
  | (k, v) :: rest =>
      match String.compare key k with
      | Lt => (key, value) :: (k, v) :: rest
      | Eq => (k, value) :: rest
      | Gt => (k, v) :: map_assign key value rest
      end
  end.

(** [m.find(key)], [None] for [m.end()]. *)
Fixpoint map_find (key : string) (m : BackendRegistry) : option BackendConfig :=
  match m with
  | [] => None
  | (k, v) :: rest =>
      match String.compare key k with
      | Lt => None
      | Eq => Some v
      | Gt => map_find key rest
      end
  end.

Definition register_backend (nm : string) (config : BackendConfig)
    (backends_ : BackendRegistry) : BackendRegistry :=
  map_assign nm config backends_.

(** [nullptr] is [None]. *)
Definition get_backend (backends_ : BackendRegistry) (nm : string)
    : option BackendConfig :=
  map_find nm backends_.

Definition get_backend_names (backends_ : BackendRegistry) : list string :=
  fold_left (fun names pair => (names ++ [fst pair])%list) backends_ [].

Definition get_all_backends (backends_ : BackendRegistry) : BackendRegistry :=
  backends_.

Definition pdm_config : BackendConfig :=
  mkBackendConfig "pdm"
    ["pdm.lock"]
    []
    "curl -sSL https://pdm-project.org/install-pdm.py | python3 -"
    ["pdm"; "add"]
    ["pdm"; "add"; "--dev"]
    ["pdm"; "remove"]
    ["pdm"; "sync"]
    ["pdm"; "sync"; "--dev"]
    ["pdm"; "run"]
    ["pdm"; "list"]
    ["pdm"; "--version"]
    ["pdm.lock"; ".pdm-python"; "__pypackages__"].

Definition uv_config : BackendConfig :=
  mkBackendConfig "uv"
    ["uv.lock"; "__pypackages__"]
    ["[tool.uv]"]
    "curl -LsSf https://astral.sh/uv/install.sh | sh"
    ["uv"; "add"]
    ["uv"; "add"; "--group"; "dev"]
    ["uv"; "remove"]
    ["uv"; "sync"]
    ["uv"; "sync"; "--group"; "dev"]
    ["uv"; "run"]
    ["uv"; "pip"; "list"]
    ["uv"; "--version"]
    ["uv.lock"; "__pypackages__"].

Definition poetry_config : BackendConfig :=
  mkBackendConfig "poetry"
    ["poetry.lock"]
    ["poetry"]
    "curl -sSL https://install.python-poetry.org | python3 -"
    ["poetry"; "add"]
    ["poetry"; "add"; "--group"; "dev"]
    ["poetry"; "remove"]
    ["poetry"; "install"]
    ["poetry"; "install"; "--with"; "dev"]
    ["poetry"; "run"]
    ["poetry"; "show"]
    ["poetry"; "--version"]
    ["poetry.lock"; ".venv"].

Definition rye_config : BackendConfig :=
  mkBackendConfig "rye"
    ["requirements.lock"]
    []
    "curl -sSf https://rye-up.com/get | bash"
    ["rye"; "add"]
    ["rye"; "add"; "--dev"]
    ["rye"; "remove"]
    ["rye"; "sync"]
    ["rye"; "sync"]
    ["rye"; "run"]
    ["rye"; "list"]
    ["rye"; "--version"]
    ["requirements.lock"; ".venv"].

Definition hatch_config : BackendConfig :=
  mkBackendConfig "hatch"
    ["hatch.lock"]
    ["[tool.hatch"]
    "pipx install hatch"
    ["hatch"; "add"]
    ["hatch"; "add"; "--dev"]
    ["hatch"; "remove"]
    ["hatch"; "dep"; "sync"]
    ["hatch"; "dep"; "sync"]
    ["hatch"; "run"]
    ["hatch"; "dep"; "show"]
    ["hatch"; "--version"]
    [".venv"].

(** The five registrations, in the order the source performs them. *)
Definition initialize_default_backends (backends_ : BackendRegistry)
    : BackendRegistry :=
  let backends_ := register_backend "pdm" pdm_config backends_ in
  let backends_ := register_backend "uv" uv_config backends_ in
  let backends_ := register_backend "poetry" poetry_config backends_ in
  let backends_ := register_backend "rye" rye_config backends_ in
  let backends_ := register_backend "hatch" hatch_config backends_ in
  backends_.

(** [BackendRegistry::BackendRegistry()] *)
Definition BackendRegistry_new : BackendRegistry :=
  initialize_default_backends [].

(** The eight command templates of a descriptor. *)
Definition templates (c : BackendConfig) : list (list string) :=
  [add_cmd c; add_dev_cmd c; remove_cmd c; sync_cmd c; sync_dev_cmd c;
   run_cmd c; list_cmd c; version_cmd c].

(** Registries reachable from the empty map by registrations. *)
Inductive built : BackendRegistry -> Prop :=
| built_empty : built []
| built_register nm config reg :
    built reg -> built (register_backend nm config reg).


(* ================================================================= *)
(** ** The platform and the effect monad *)

(** Result of a call that may throw; [what] is [e.what()]. *)
Inductive outcome (A : Type) : Type :=
| Ok (a : A)
| Raise (what : string).
Arguments Ok {A} a.
Arguments Raise {A} what.

(** The primitives the engine calls.
    - [sys_exists]: [std::filesystem::exists(p)], the throwing overload;
    - [sys_remove_all]: [std::filesystem::remove_all(p)];
    - [sys_slurp]: opening an [std::ifstream] and draining its [rdbuf()],
      [None] when the stream cannot be opened;
    - [sys_popen]: [popen(cmd, "r")], [None] for a null pipe, otherwise
      the chunks successive [fgets] calls deliver and the value of
      [pclose]. *)
Record Platform := mkPlatform {
  Env : Type;
  sys_exists : Env -> string -> outcome bool;
  sys_remove_all : Env -> string -> outcome unit * Env;
  sys_slurp : Env -> string -> option string;
  sys_popen : Env -> string -> option (list string * Z) * Env
}.

Inductive Event : Type :=
| EvExists (path : string)
| EvSlurp (path : string)
| EvRemoveAll (path : string)
| EvPopen (cmd : string).

(** Subprocesses started, oldest first. *)
Definition popen_calls (tr : list Event) : list string :=
  flat_map (fun ev => match ev with EvPopen c => [c] | _ => [] end) tr.

(** Files read, oldest first. *)
Definition slurp_calls (tr : list Event) : list string :=
  flat_map (fun ev => match ev with EvSlurp p => [p] | _ => [] end) tr.


Section Effects.

Context {P : Platform}.

Record World := mkWorld {
  env : Env P;
  trace : list Event
}.

Definition Eff (A : Type) : Type := World -> outcome A * World.

Definition ret {A} (a : A) : Eff A := fun w => (Ok a, w).

Definition bind {A B} (c : Eff A) (k : A -> Eff B) : Eff B :=
  fun w =>
    match c w with
    | (Ok a, w') => k a w'
    | (Raise what, w') => (Raise what, w')
    end.

(** [try { body } catch (const std::exception& e) { handler(e.what()) }] *)
Definition try_catch {A} (body : Eff A) (handler : string -> Eff A) : Eff A :=
  fun w =>
    match body w with
    | (Ok a, w') => (Ok a, w')
    | (Raise what, w') => handler what w'
    end.

Definition log (ev : Event) (w : World) : World :=
  mkWorld (env w) (trace w ++ [ev])%list.

Definition fs_exists (path : string) : Eff bool :=
  fun w => (sys_exists P (env w) path, log (EvExists path) w).

Definition fs_remove_all (path : string) : Eff unit :=
  fun w =>
    let (r, e') := sys_remove_all P (env w) path in
    (r, mkWorld e' (trace w ++ [EvRemoveAll path])%list).

Definition fs_slurp (path : string) : Eff (option string) :=
  fun w => (Ok (sys_slurp P (env w) path), log (EvSlurp path) w).

Definition popen (cmd : string) : Eff (option (list string * Z)) :=
  fun w =>
    let (r, e') := sys_popen P (env w) cmd in
    (Ok r, mkWorld e' (trace w ++ [EvPopen cmd])%list).

End Effects.

Arguments World P : clear implicits.
Arguments Eff P A : clear implicits.

Declare Scope eff_scope.
Delimit Scope eff_scope with eff.
Notation "x <- c ;; k" := (bind c (fun x => k))
  (at level 61, c at next level, right associativity) : eff_scope.
Notation "c ;;; k" := (bind c (fun _ => k))
  (at level 61, right associativity) : eff_scope.
Local Open Scope eff_scope.

(* ================================================================= *)
(** ** engine.hpp: [OperationResult] and [Engine] *)

Record OperationResult := mkOperationResult {
  success : bool;
  output : string;
  error : string;
  exit_code : Z
}.

Record Engine := mkEngine {
  registry_ : BackendRegistry;
  project_path_ : string
}.

(** [Engine::Engine(project_path)] *)
Definition Engine_new (project_path : string) : Engine :=
  mkEngine BackendRegistry_new project_path.

(* ================================================================= *)
(** ** engine.cpp *)

(** [substitute_placeholders]: copy the template, insert the arguments at
    its end. *)
Definition substitute_placeholders (cmd_template args : list string)
    : list string :=
  let result := cmd_template in
  let result := (result ++ args)%list in
  result.

(** The loop of [execute_command] that fills [cmd_stream]; [i] is the
    loop index, [rest] the tokens [command[i..]]. *)
Fixpoint cmd_stream_loop (i : nat) (rest : list string) (cmd_stream : string)
    : string :=
  match rest with
  | [] => cmd_stream
  | tok :: rest' =>
      let cmd_stream := if Nat.ltb 0 i then cmd_stream ++ " " else cmd_stream in
      let cmd_stream :=
        if found " " tok
        then cmd_stream ++ dquote ++ tok ++ dquote
        else cmd_stream ++ tok in
      cmd_stream_loop (S i) rest' cmd_stream
  end.

(** [cmd_str], the argument of [popen]. *)
Definition cmd_str (command : list string) : string :=
  cmd_stream_loop 0 command "".

(** The [fgets] loop: [output += buffer] for each chunk. *)
Definition drain (chunks : list string) : string :=
  fold_left String.append chunks "".

Section EngineOps.

Context {P : Platform}.
Variable this : Engine.

Definition file_exists (filename : string) : Eff P bool :=
  fs_exists filename.

Definition read_file (filename : string) : Eff P string :=
  file <- fs_slurp filename ;;
  match file with
  | None => ret ""
  | Some content => ret content
  end.

(** Inner loop of the first pass, for one descriptor. *)
Fixpoint detect_by_files (nm : string) (files : list string)
    : Eff P (option string) :=
  match files with
  | [] => ret None
  | file :: files' =>
      let full_path := project_path_ this ++ "/" ++ file in
      b <- file_exists full_path ;;
      if b then ret (Some nm) else detect_by_files nm files'
  end.

(** First pass over the map. *)
Fixpoint first_pass (backends : BackendRegistry) : Eff P (option string) :=
  match backends with
  | [] => ret None
  | (nm, config) :: backends' =>
      r <- detect_by_files nm (detection_files config) ;;
      match r with
      | Some found_name => ret (Some found_name)
      | None => first_pass backends'
      end
  end.

(** Inner loop of the second pass, for one descriptor. *)
Fixpoint detect_by_patterns (content nm : string) (patterns : list string)
    : option string :=
  match patterns with
  | [] => None
  | pattern :: patterns' =>
      if found pattern content then Some nm
      else detect_by_patterns content nm patterns'
  end.

(** Second pass over the map. *)
Fixpoint second_pass (content : string) (backends : BackendRegistry)
    : option string :=
  match backends with
  | [] => None
  | (nm, config) :: backends' =>
      match detect_by_patterns content nm (detection_patterns config) with
      | Some found_name => Some found_name
      | None => second_pass content backends'
      end
  end.

Definition detect_backend : Eff P (option string) :=
  let backends := get_all_backends (registry_ this) in
  r <- first_pass backends ;;
  match r with
  | Some found_name => ret (Some found_name)
  | None =>
      let pyproject_path := project_path_ this ++ "/pyproject.toml" in
      b <- file_exists pyproject_path ;;
      if b then
        content <- read_file pyproject_path ;;
        ret (second_pass content backends)
      else ret None
  end.

Definition get_available_backends : list string :=
  get_backend_names (registry_ this).

Definition is_backend_available (backend_name : string) : bool :=
  match get_backend (registry_ this) backend_name with
  | Some _ => true
  | None => false
  end.

Definition resolve_backend (backend : string) : Eff P string :=
  if negb (empty backend) then ret backend
  else
    detected <- detect_backend ;;
    match detected with
    | Some nm => ret nm
    | None => ret ""
    end.

Definition execute_command (command : list string) : Eff P OperationResult :=
  match command with
  | [] => ret (mkOperationResult false "" "Empty command" 1)
  | _ :: _ =>
      let cmd_str := cmd_str command in
      pipe <- popen cmd_str ;;
      match pipe with
      | None => ret (mkOperationResult false "" "Failed to execute command" 1)
      | Some (chunks, status) =>
          let output := drain chunks in
          let exit_code := status in
          let success := Z.eqb exit_code 0 in
          ret (mkOperationResult success output
                 (if success then "" else output) exit_code)
      end
  end.

(** The prologue shared by the seven operations: resolve, look up, and
    either fail or continue with the descriptor. *)
Definition with_backend (backend : string)
    (k : BackendConfig -> Eff P OperationResult) : Eff P OperationResult :=
  resolved_backend <- resolve_backend backend ;;
  if empty resolved_backend then
    ret (mkOperationResult false "" "No backend found or specified" 1)
  else
    match get_backend (registry_ this) resolved_backend with
    | None =>
        ret (mkOperationResult false ""
               ("Backend not found: " ++ resolved_backend) 1)
    | Some config => k config
    end.

Definition add_package (package : string) (dev : bool) (backend : string)
    : Eff P OperationResult :=
  with_backend backend (fun config =>
    let cmd_template := if dev then add_dev_cmd config else add_cmd config in
    let command := substitute_placeholders cmd_template [package] in
    execute_command command).

Definition remove_package (package : string) (backend : string)
    : Eff P OperationResult :=
  with_backend backend (fun config =>
    let command := substitute_placeholders (remove_cmd config) [package] in
    execute_command command).

Definition sync_packages (dev : bool) (backend : string)
    : Eff P OperationResult :=
  with_backend backend (fun config =>
    let cmd_template := if dev then sync_dev_cmd config else sync_cmd config in
    let command := substitute_placeholders cmd_template [] in
    execute_command command).

Definition run_command (command : list string) (backend : string)
    : Eff P OperationResult :=
  with_backend backend (fun config =>
    let full_command := run_cmd config in
    let full_command := (full_command ++ command)%list in
    execute_command full_command).

Definition list_packages (backend : string) : Eff P OperationResult :=
  with_backend backend (fun config => execute_command (list_cmd config)).

Definition get_version (backend : string) : Eff P OperationResult :=
  with_backend backend (fun config => execute_command (version_cmd config)).

(** One iteration of the loop of [clean_project]; [st] holds the local
    variables [output] and [success]. *)
Definition clean_step (st : string * bool) (file : string)
    : Eff P (string * bool) :=
  let full_path := project_path_ this ++ "/" ++ file in
  try_catch
    (b <- fs_exists full_path ;;
     if b then
       fs_remove_all full_path ;;;
       ret (fst st ++ ("Removed: " ++ file ++ nl), snd st)
     else ret st)
    (fun what =>
       ret (fst st ++ ("Failed to remove " ++ file ++ ": " ++ what ++ nl),
            false)).

Fixpoint clean_loop (st : string * bool) (files : list string)
    : Eff P (string * bool) :=
  match files with
  | [] => ret st
  | file :: files' =>
      st' <- clean_step st file ;;
      clean_loop st' files'
  end.

Definition clean_project (backend : string) : Eff P OperationResult :=
  with_backend backend (fun config =>
    st <- clean_loop ("", true) (clean_files config) ;;
    let (output, success) := st in
    ret (mkOperationResult success output "" (if success then 0 else 1)%Z)).

Definition get_install_command (backend : string) : string :=
  match get_backend (registry_ this) backend with
  | Some config => install_url config
  | None => ""
  end.

Definition get_clean_files (backend : string) : list string :=
  match get_backend (registry_ this) backend with
  | Some config => clean_files config
  | None => []
  end.

End EngineOps.

(* ================================================================= *)
(** ** cli.cpp: the dispatch of [main] on the command word *)

Inductive Operation : Type :=
| OpAdd (package : string) (dev : bool)
| OpRemove (package : string)
| OpSync (dev : bool)
| OpRun (argv : list string)
| OpList
| OpVersion
| OpClean.

Definition perform {P : Platform} (engine : Engine) (op : Operation)
    (backend : string) : Eff P OperationResult :=
  match op with
  | OpAdd package dev => add_package engine package dev backend
  | OpRemove package => remove_package engine package backend
  | OpSync dev => sync_packages engine dev backend
  | OpRun argv => run_command engine argv backend
  | OpList => list_packages engine backend
  | OpVersion => get_version engine backend
  | OpClean => clean_project engine backend
  end.

(** The operations that end in [execute_command]. *)
Definition delegates (op : Operation) : bool :=
  match op with
  | OpClean => false
  | _ => true
  end.

(** The argument list an operation builds from a descriptor. *)
Definition argument_list (config : BackendConfig) (op : Operation)
    : list string :=
  match op with
  | OpAdd package dev =>
      ((if dev then add_dev_cmd config else add_cmd config) ++ [package])%list
  | OpRemove package => (remove_cmd config ++ [package])%list
  | OpSync dev => if dev then sync_dev_cmd config else sync_cmd config
  | OpRun argv => (run_cmd config ++ argv)%list
  | OpList => list_cmd config
  | OpVersion => version_cmd config
  | OpClean => []
  end.

(* ================================================================= *)
(** ** Vocabulary of the statements *)

(** A token as it appears inside the command string. *)
Definition quote_token (tok : string) : string :=
  if found " " tok then dquote ++ tok ++ dquote else tok.

(** The order of the keys of the map: [std::less<std::string>]. *)
Definition string_lt (a b : string) : Prop := String.compare a b = Lt.

Definition keys (m : BackendRegistry) : list string := map fst m.

(** The invariant of an ordered map: strictly ascending keys. *)
Definition sorted (m : BackendRegistry) : Prop :=
  StronglySorted string_lt (keys m).

(** [pat] occurs in [s]. *)
Definition substring_of (pat s : string) : Prop :=
  exists before after, s = before ++ pat ++ after.

Section Vocabulary.

Context {P : Platform}.

(** Events appended to the trace between two worlds. *)
Definition appended (w w' : World P) (evs : list Event) : Prop :=
  trace w' = (trace w ++ evs)%list.

(** Events that only query the file system. *)
Definition is_query (ev : Event) : bool :=
  match ev with
  | EvExists _ | EvSlurp _ => true
  | _ => false
  end.

(** A computation that only observes: it appends queries to the trace,
    leaves the environment alone, and its result and its queries are
    determined by the environment. *)
Definition observes {A} (c : Eff P A) : Prop :=
  forall w, exists evs,
    forallb is_query evs = true /\
    forall w2, env w2 = env w ->
      c w2 = (fst (c w), mkWorld (env w2) (trace w2 ++ evs)%list).

(** True when [file] exists under the project root and the status query
    does not throw. *)
Definition present (this : Engine) (e : Env P) (file : string) : bool :=
  match sys_exists P e (project_path_ this ++ "/" ++ file) with
  | Ok b => b
  | Raise _ => false
  end.

(** No status query throws. *)
Definition calm (e : Env P) : Prop :=
  forall path, exists b, sys_exists P e path = Ok b.

(** Text of the manifest as [read_file] delivers it. *)
Definition manifest (this : Engine) (e : Env P) : string :=
  match sys_slurp P e (project_path_ this ++ "/pyproject.toml") with
  | Some content => content
  | None => ""
  end.

(** The strong signal of the specification: some detection file of the
    descriptor exists. *)
Definition file_signal (this : Engine) (e : Env P)
    (entry : string * BackendConfig) : bool :=
  existsb (present this e) (detection_files (snd entry)).

(** The weak signal: some detection pattern occurs in the manifest. *)
Definition pattern_signal (content : string)
    (entry : string * BackendConfig) : bool :=
  existsb (fun pattern => found pattern content)
    (detection_patterns (snd entry)).

(** Detection as the specification words it: the first descriptor with a
    file signal; failing that, and if the manifest exists, the first
    descriptor with a pattern signal. *)
Definition spec_detect (this : Engine) (e : Env P) : option string :=
  match List.find (file_signal this e) (registry_ this) with
  | Some entry => Some (fst entry)
  | None =>
      if present this e "pyproject.toml" then
        match List.find (pattern_signal (manifest this e)) (registry_ this) with
        | Some entry => Some (fst entry)
        | None => None
        end
      else None
  end.

(** The manifest reads the specification allows: one, and only when the
    first pass found nothing and the manifest exists. *)
Definition spec_manifest_reads (this : Engine) (e : Env P) : list string :=
  match List.find (file_signal this e) (registry_ this) with
  | Some _ => []
  | None =>
      if present this e "pyproject.toml"
      then [project_path_ this ++ "/pyproject.toml"]
      else []
  end.

(** The signal that counts for a descriptor: its file signal when some
    descriptor has one, otherwise its pattern signal in an existing
    manifest. *)
Definition matching (this : Engine) (e : Env P)
    (entry : string * BackendConfig) : bool :=
  if existsb (file_signal this e) (registry_ this)
  then file_signal this e entry
  else present this e "pyproject.toml"
       && pattern_signal (manifest this e) entry.

(** What happens to one cleanup path. *)
Inductive attempt : Type :=
| Skipped
| Removed
| Failed (reason : string).

Definition failed (a : attempt) : bool :=
  match a with
  | Failed _ => true
  | _ => false
  end.

Definition log_line (file : string) (a : attempt) : string :=
  match a with
  | Skipped => ""
  | Removed => "Removed: " ++ file ++ nl
  | Failed reason => "Failed to remove " ++ file ++ ": " ++ reason ++ nl
  end.

(** The attempt on [file] in environment [e], and the environment left. *)
Definition attempt_on (this : Engine) (e : Env P) (file : string)
    : attempt * Env P :=
  let full_path := project_path_ this ++ "/" ++ file in
  match sys_exists P e full_path with
  | Raise reason => (Failed reason, e)
  | Ok false => (Skipped, e)
  | Ok true =>
      match sys_remove_all P e full_path with
      | (Ok _, e') => (Removed, e')
      | (Raise reason, e') => (Failed reason, e')
      end
  end.

(** The attempts on a list of paths, in order, each in the environment the
    previous ones left. *)
Fixpoint attempts (this : Engine) (e : Env P) (files : list string)
    : list (string * attempt) :=
  match files with
  | [] => []
  | file :: files' =>
      let (a, e') := attempt_on this e file in
      (file, a) :: attempts this e' files'
  end.

Definition log_of (l : list (string * attempt)) : string :=
  String.concat "" (map (fun fa => log_line (fst fa) (snd fa)) l).

(** The failure results of the prologue of an operation. *)
Definition no_backend : OperationResult :=
  mkOperationResult false "" "No backend found or specified" 1.

Definition backend_not_found (id : string) : OperationResult :=
  mkOperationResult false "" ("Backend not found: " ++ id) 1.

(** The diagnostics the engine writes itself. *)
Definition synthesized (msg : string) : Prop :=
  msg = "No backend found or specified" \/
  (exists id, msg = "Backend not found: " ++ id) \/
  msg = "Empty command" \/
  msg = "Failed to execute command".

(** The file-system calls of the attempts on a list of paths: a status
    query for every path and, where it answers true, a removal. *)
Fixpoint attempt_events (this : Engine) (e : Env P) (files : list string)
    : list Event :=
  match files with
  | [] => []
  | file :: files' =>
      let full_path := project_path_ this ++ "/" ++ file in
      (EvExists full_path
       :: match sys_exists P e full_path with
          | Ok true => [EvRemoveAll full_path]
          | _ => []
          end
       ++ attempt_events this (snd (attempt_on this e file)) files')%list
  end.

End Vocabulary.

(* ================================================================= *)
(** ** A small concrete platform, for examples *)

Record Disk := mkDisk {
  disk_files : list (string * string);
  disk_busy : list (string * string);
  disk_shell : string -> option (list string * Z)
}.

Fixpoint lookup (key : string) (l : list (string * string)) : option string :=
  match l with
  | [] => None
  | (k, v) :: l' => if String.eqb key k then Some v else lookup key l'
  end.

(** Files are kept in a flat table; a path in [disk_busy] cannot be
    removed, and the table entry gives the reason. *)
Definition disk : Platform :=
  mkPlatform
    (fun d path =>
       Ok (match lookup path (disk_files d) with Some _ => true | None => false end))
    (fun d path =>
       match lookup path (disk_busy d) with
       | Some reason => (Raise reason, d)
       | None =>
           (Ok tt,
            mkDisk
              (filter (fun kv => negb (String.eqb path (fst kv))) (disk_files d))
              (disk_busy d) (disk_shell d))
       end)
    (fun d path => lookup path (disk_files d))
    (fun d cmd => (disk_shell d cmd, d)).

Definition boot (d : Disk) : World disk := mkWorld (P := disk) d [].

(** A project with a uv lock file and a manifest that mentions poetry. *)
Definition uv_project (shell : string -> option (list string * Z)) : Disk :=
  mkDisk [("./uv.lock", ""); ("./pyproject.toml", "[tool.poetry]")] [] shell.

(** An empty project directory. *)
Definition empty_project (shell : string -> option (list string * Z)) : Disk :=
  mkDisk [] [] shell.

(** A project with the lock files of both pdm and uv. *)
Definition two_locks_project (shell : string -> option (list string * Z))
    : Disk :=
  mkDisk [("./uv.lock", ""); ("./pdm.lock", "")] [] shell.

(** A project with a uv lock file whose manifest configures hatch. *)
Definition mixed_project (shell : string -> option (list string * Z))
    : Disk :=
  mkDisk [("./uv.lock", ""); ("./pyproject.toml", "[tool.hatch.version]")]
         [] shell.

(** A project with a manifest only, which configures both hatch and uv. *)
Definition manifest_project (shell : string -> option (list string * Z))
    : Disk :=
  mkDisk [("./pyproject.toml", "[tool.uv] [tool.hatch.version]")] [] shell.

(** A poetry project whose lock file cannot be removed. *)
Definition locked_project (shell : string -> option (list string * Z)) : Disk :=
  mkDisk [("./poetry.lock", ""); ("./.venv", "")]
         [("./poetry.lock", "Permission denied")] shell.

(** A shell in which every command prints nothing and exits with 1
    ([pclose] then yields the wait status 256). *)
Definition silent_failure : string -> option (list string * Z) :=
  fun _ => Some ([], 256%Z).

(** A shell in which every command prints one line and succeeds. *)
Definition chatty_success : string -> option (list string * Z) :=
  fun _ => Some (["ok" ++ nl], 0%Z).

(* ================================================================= *)
(** ** cli.cpp: [print_usage] and [main] *)

(** [print_usage]: the lines written to [std::cout], appended to what the
    stream already holds. *)
Definition print_usage (cout : string) : string :=
  let cout := cout ++ ("Usage: uvstart-engine <command> [options]" ++ nl) in
  let cout := cout ++ (nl ++ "Commands:" ++ nl) in
  let cout := cout ++ ("  detect                     - Detect current backend" ++ nl) in
  let cout := cout ++ ("  backends                   - List available backends" ++ nl) in
  let cout := cout ++ ("  add <package> [--dev] [--backend <name>]   - Add package" ++ nl) in
  let cout := cout ++ ("  remove <package> [--backend <name>]        - Remove package" ++ nl) in
  let cout := cout ++ ("  sync [--dev] [--backend <name>]            - Sync packages" ++ nl) in
  let cout := cout ++ ("  run <command...> [--backend <name>]        - Run command" ++ nl) in
  let cout := cout ++ ("  list [--backend <name>]                    - List packages" ++ nl) in
  let cout := cout ++ ("  version [--backend <name>]                 - Get backend version" ++ nl) in
  let cout := cout ++ ("  clean [--backend <name>]                   - Clean project files" ++ nl) in
  let cout := cout ++ ("  install-cmd <backend>                       - Get install command" ++ nl) in
  let cout := cout ++ ("  clean-files <backend>                       - Get clean files list" ++ nl) in
  let cout := cout ++ (nl ++ "Options:" ++ nl) in
  let cout := cout ++ ("  --dev                      - Development dependencies" ++ nl) in
  let cout := cout ++ ("  --backend <name>           - Specific backend to use" ++ nl) in
  let cout := cout ++ ("  --path <path>              - Project path (default: current directory)" ++ nl) in
  cout.

(** The local variables the option loop of [main] fills. *)
Record Options := mkOptions {
  opt_project_path : string;
  opt_backend : string;
  opt_dev : bool;
  opt_args : list string
}.

(** The values the variables have before the loop. *)
Definition initial_options : Options := mkOptions "." "" false [].

(** The option loop, [rest] being [argv[i..]].  The test [i + 1 < argc]
    is the test that a further element follows. *)
Fixpoint parse_options (rest : list string) (o : Options) : Options :=
  match rest with
  | [] => o
  | arg :: rest' =>
      if String.eqb arg "--dev" then
        parse_options rest'
          (mkOptions (opt_project_path o) (opt_backend o) true (opt_args o))
      else
        match rest' with
        | next :: rest'' =>
            if String.eqb arg "--backend" then
              parse_options rest''
                (mkOptions (opt_project_path o) next (opt_dev o) (opt_args o))
            else if String.eqb arg "--path" then
              parse_options rest''
                (mkOptions next (opt_backend o) (opt_dev o) (opt_args o))
            else
              parse_options rest'
                (mkOptions (opt_project_path o) (opt_backend o) (opt_dev o)
                   (opt_args o ++ [arg])%list)
        | [] =>
            parse_options rest'
              (mkOptions (opt_project_path o) (opt_backend o) (opt_dev o)
                 (opt_args o ++ [arg])%list)
        end
  end.

(** What the process leaves: the value [main] returns and the text
    written to the two streams. *)
Record Exit := mkExit {
  returned : Z;
  cout : string;
  cerr : string
}.

(** The tail of [main]: print the result, return its exit code. *)
Definition output_result (result : OperationResult) : Exit :=
  let cout := if negb (empty (output result)) then "" ++ output result else "" in
  let cerr := if negb (empty (error result)) then "" ++ error result else "" in
  mkExit (exit_code result) cout cerr.

(** One line per element, as the range-for loops of [main] print them. *)
Definition print_lines (items : list string) (cout : string) : string :=
  fold_left (fun cout item => cout ++ item ++ nl) items cout.

Definition main {P : Platform} (argv : list string) : Eff P Exit :=
  match argv with
  | [] | [_] => ret (mkExit 1 (print_usage "") "")
  | _ :: command :: rest =>
      let o := parse_options rest initial_options in
      let project_path := opt_project_path o in
      let backend := opt_backend o in
      let dev := opt_dev o in
      let args := opt_args o in
      let engine := Engine_new project_path in
      if String.eqb command "detect" then
        detected <- detect_backend engine ;;
        match detected with
        | Some nm => ret (mkExit 0 (nm ++ nl) "")
        | None => ret (mkExit 1 ("none" ++ nl) "")
        end
      else if String.eqb command "backends" then
        ret (mkExit 0 (print_lines (get_available_backends engine) "") "")
      else if String.eqb command "add" then
        match args with
        | [] => ret (mkExit 1 "" ("Error: Package name required" ++ nl))
        | package :: _ =>
            result <- add_package engine package dev backend ;;
            ret (output_result result)
        end
      else if String.eqb command "remove" then
        match args with
        | [] => ret (mkExit 1 "" ("Error: Package name required" ++ nl))
        | package :: _ =>
            result <- remove_package engine package backend ;;
            ret (output_result result)
        end
      else if String.eqb command "sync" then
        result <- sync_packages engine dev backend ;;
        ret (output_result result)
      else if String.eqb command "run" then
        match args with
        | [] => ret (mkExit 1 "" ("Error: Command required" ++ nl))
        | _ :: _ =>
            result <- run_command engine args backend ;;
            ret (output_result result)
        end
      else if String.eqb command "list" then
        result <- list_packages engine backend ;;
        ret (output_result result)
      else if String.eqb command "version" then
        result <- get_version engine backend ;;
        ret (output_result result)
      else if String.eqb command "clean" then
        result <- clean_project engine backend ;;
        ret (output_result result)
      else if String.eqb command "install-cmd" then
        match args with
        | [] => ret (mkExit 1 "" ("Error: Backend name required" ++ nl))
        | name0 :: _ =>
            let install_cmd := get_install_command engine name0 in
            if empty install_cmd then
              ret (mkExit 1 "" ("Error: Unknown backend: " ++ name0 ++ nl))
            else ret (mkExit 0 (install_cmd ++ nl) "")
        end
      else if String.eqb command "clean-files" then
        match args with
        | [] => ret (mkExit 1 "" ("Error: Backend name required" ++ nl))
        | name0 :: _ =>
            let clean_files := get_clean_files engine name0 in
            ret (mkExit 0 (print_lines clean_files "") "")
        end
      else
        let cerr := "Error: Unknown command: " ++ command ++ nl in
        ret (mkExit 1 (print_usage "") cerr)
  end.

(** [Engine::set_project_path] and [Engine::get_project_path]. *)
Definition set_project_path (this : Engine) (path : string) : Engine :=
  mkEngine (registry_ this) path.

Definition get_project_path (this : Engine) : string := project_path_ this.

(* ================================================================= *)
(** ** Vocabulary of the further statements *)

(** Recursive removals requested, oldest first. *)
Definition remove_calls (tr : list Event) : list string :=
  flat_map (fun ev => match ev with EvRemoveAll p => [p] | _ => [] end) tr.

(** The words the option loop gives a meaning to. *)
Definition option_word (arg : string) : bool :=
  (String.eqb arg "--dev" || String.eqb arg "--backend"
   || String.eqb arg "--path")%bool.


(** The engine call a command line amounts to, given the parsed options:
    the first positional argument is the package of add and remove, all
    of them are the command of run. *)
Definition requested (command : string) (o : Options) : option Operation :=
  if String.eqb command "add" then
    match opt_args o with
    | package :: _ => Some (OpAdd package (opt_dev o))
    | [] => None
    end
  else if String.eqb command "remove" then
    match opt_args o with
    | package :: _ => Some (OpRemove package)
    | [] => None
    end
  else if String.eqb command "sync" then Some (OpSync (opt_dev o))
  else if String.eqb command "run" then
    match opt_args o with
    | _ :: _ => Some (OpRun (opt_args o))
    | [] => None
    end
  else if String.eqb command "list" then Some OpList
  else if String.eqb command "version" then Some OpVersion
  else if String.eqb command "clean" then Some OpClean
  else None.

(** Every detection pattern of the registry is a non-empty string. *)
Definition patterns_nonempty (m : BackendRegistry) : Prop :=
  Forall (fun entry => Forall (fun pattern => pattern <> "")
                         (detection_patterns (snd entry))) m.

(** A project whose manifest exists and is empty. *)
Definition blank_manifest_project
    (shell : string -> option (list string * Z)) : Disk :=
  mkDisk [("./pyproject.toml", "")] [] shell.

(** A platform on which every status query throws. *)
Definition stormy : Platform :=
  mkPlatform
    (fun (d : Disk) (path : string) => Raise (A := bool) "Permission denied")
    (fun d path => (Ok tt, d))
    (fun d path => None)
    (fun d cmd => (disk_shell d cmd, d)).

(** A shell whose commands print two chunks and exit with 2 ([pclose]
    yields 512). *)
Definition noisy_failure : string -> option (list string * Z) :=
  fun _ => Some (["error: "; "no such package" ++ nl], 512%Z).

(** A shell that cannot be started. *)
Definition no_shell : string -> option (list string * Z) :=
  fun _ => None.

(** [c] occurs in [s]. *)
Fixpoint has_char (c : ascii) (s : string) : bool :=
  match s with
  | EmptyString => false
  | String x s' => Ascii.eqb x c || has_char c s'
  end.

(** A token without a double quote. *)
Definition quote_free (tok : string) : Prop := has_char "034"%char tok = false.

(** The elements of a list up to and including the first that passes
    the test. *)
Fixpoint take_until {A} (test : A -> bool) (l : list A) : list A :=
  match l with
  | [] => []
  | x :: l' => x :: (if test x then [] else take_until test l')
  end.

(** The detection files of the registry, in the order the first pass
    meets them. *)
Definition detection_files_in_order (m : BackendRegistry) : list string :=
  flat_map (fun entry => detection_files (snd entry)) m.

(** The status query for a file under the project path. *)
Definition status_query (this : Engine) (file : string) : Event :=
  EvExists (project_path_ this ++ "/" ++ file).

(** The events of a complete detection: a status query for each
    detection file up to the first that exists and, when none does, one
    for the manifest, followed by its read if it exists. *)
Definition detection_events {P : Platform} (this : Engine) (e : Env P)
    : list Event :=
  let files := detection_files_in_order (registry_ this) in
  let manifest_path := project_path_ this ++ "/pyproject.toml" in
  (map (status_query this) (take_until (present this e) files)
   ++ (if existsb (present this e) files then []
       else EvExists manifest_path
            :: (if present this e "pyproject.toml"
                then [EvSlurp manifest_path] else [])))%list.

(* ================================================================= *)
(** * Properties *)

(* ================================================================= *)
(** ** Strings *)

Lemma append_nil_r (s : string) : s ++ "" = s.
Proof. induction s as [|c s IH]; simpl; [reflexivity | now rewrite IH]. Qed.

Lemma append_assoc (a b c : string) : (a ++ b) ++ c = a ++ (b ++ c).
Proof. induction a as [|x a IH]; simpl; [reflexivity | now rewrite IH]. Qed.

Lemma length_append (a b : string) :
  String.length (a ++ b) = String.length a + String.length b.
Proof. induction a as [|x a IH]; simpl; [reflexivity | now rewrite IH]. Qed.

Lemma substring_middle (a p b : string) :
  substring (String.length a) (String.length p) (a ++ p ++ b) = p.
Proof.
  induction a as [|x a IH]; simpl.
  - induction p as [|y p IHp]; simpl.
    + now destruct b.
    + now rewrite IHp.
  - exact IH.
Qed.

Lemma substring_split (m : nat) : forall (s p : string),
  substring m (String.length p) s = p -> substring_of p s.
Proof.
  induction m as [|m IH]; intros s p H.
  - exists "". simpl. revert s H.
    induction p as [|y p IHp]; intros s H.
    + exists s. reflexivity.
    + destruct s as [|x s]; simpl in H; [discriminate|].
      injection H as -> H. destruct (IHp _ H) as [after ->].
      exists after. reflexivity.
  - destruct s as [|x s]; simpl in H.
    + destruct p; [|discriminate]. exists "", "". reflexivity.
    + destruct (IH _ _ H) as (before & after & ->).
      exists (String x before), after. reflexivity.
Qed.

(** [found] decides occurrence as a substring. *)
Lemma found_substring (pat s : string) :
  found pat s = true <-> substring_of pat s.
Proof.
  unfold found, find. split.
  - destruct (index 0 pat s) as [m|] eqn:E; [intros _|discriminate].
    apply index_correct1 in E. now apply substring_split with m.
  - intros (before & after & ->).
    destruct (index 0 pat (before ++ pat ++ after)) as [m|] eqn:E; [reflexivity|].
    exfalso. destruct pat as [|c pat].
    + apply index_correct4 in E. lia.
    + apply (index_correct3 0 (String.length before) _ _ E).
      * discriminate.
      * lia.
      * apply substring_middle.
Qed.

Lemma compare_refl (s : string) : String.compare s s = Eq.
Proof.
  induction s as [|c s IH]; simpl; [reflexivity|].
  unfold Ascii.compare. now rewrite N.compare_refl.
Qed.

Lemma compare_as_OT (a b : string) :
  String.compare a b = String_as_OT.compare a b.
Proof.
  reflexivity.
Qed.

Lemma string_lt_trans (a b c : string) :
  string_lt a b -> string_lt b c -> string_lt a c.
Proof.
  unfold string_lt. rewrite !compare_as_OT.
  apply (@StrictOrder_Transitive _ _ String_as_OT.lt_strorder).
Qed.

Lemma string_lt_irrefl (a : string) : ~ string_lt a a.
Proof. unfold string_lt. now rewrite compare_refl. Qed.

Lemma compare_gt_lt (a b : string) :
  String.compare a b = Gt -> string_lt b a.
Proof.
  unfold string_lt. intros H. rewrite String.compare_antisym, H. reflexivity.
Qed.

(* ================================================================= *)
(** ** The registry as an ordered map *)

Lemma map_assign_keys_lower (key : string) (value : BackendConfig) (k0 : string) :
  forall m, string_lt k0 key -> Forall (string_lt k0) (keys m) ->
       Forall (string_lt k0) (keys (map_assign key value m)).
Proof.
  induction m as [|[k v] m IH]; intros Hk Hm; simpl.
  - now repeat constructor.
  - inversion Hm; subst.
    destruct (String.compare key k); simpl; constructor; auto.
Qed.

Lemma map_assign_sorted (key : string) (value : BackendConfig) :
  forall m, sorted m -> sorted (map_assign key value m).
Proof.
  unfold sorted.
  induction m as [|[k v] m IH]; intros Hm; simpl.
  - repeat constructor.
  - inversion Hm as [|? ? Htl Hhd]; subst.
    destruct (String.compare key k) eqn:E; simpl.
    + now constructor.
    + constructor; [exact Hm|].
      constructor; [exact E|].
      eapply Forall_impl; [|exact Hhd].
      intros a Ha. now apply string_lt_trans with k.
    + constructor; [now apply IH|].
      apply map_assign_keys_lower; [now apply compare_gt_lt | exact Hhd].
Qed.

Lemma built_sorted (m : BackendRegistry) : built m -> sorted m.
Proof.
  induction 1 as [|nm config reg _ IH].
  - constructor.
  - now apply map_assign_sorted.
Qed.

Lemma built_default : built BackendRegistry_new.
Proof. repeat constructor. Qed.

Lemma sorted_NoDup (m : BackendRegistry) : sorted m -> NoDup (keys m).
Proof.
  unfold sorted. induction 1 as [|k ks _ IH Hk]; constructor; auto.
  intros Hin. rewrite Forall_forall in Hk.
  exact (string_lt_irrefl (Hk _ Hin)).
Qed.

Lemma map_find_In (key : string) (value : BackendConfig) :
  forall m, sorted m -> In (key, value) m -> map_find key m = Some value.
Proof.
  unfold sorted.
  induction m as [|[k v] m IH]; intros Hm Hin; [contradiction|].
  inversion Hm as [|? ? Htl Hhd]; subst. simpl.
  destruct Hin as [Heq|Hin].
  - injection Heq as -> ->. now rewrite compare_refl.
  - assert (Hlt : string_lt k key).
    { rewrite Forall_forall in Hhd. apply Hhd.
      change key with (fst (key, value)). now apply in_map. }
    rewrite String.compare_antisym. unfold string_lt in Hlt. rewrite Hlt. simpl.
    now apply IH.
Qed.

Lemma map_find_Some (key : string) (value : BackendConfig) :
  forall m, map_find key m = Some value -> In (key, value) m.
Proof.
  induction m as [|[k v] m IH]; simpl; [discriminate|].
  destruct (String.compare key k) eqn:E; intros H.
  - apply String.compare_eq_iff in E. injection H as ->. subst. now left.
  - discriminate.
  - right. now apply IH.
Qed.

Lemma map_find_None (key : string) (m : BackendRegistry) :
  ~ In key (keys m) -> map_find key m = None.
Proof.
  intros Hnot. destruct (map_find key m) as [value|] eqn:E; [|reflexivity].
  exfalso. apply Hnot. apply map_find_Some in E.
  change key with (fst (key, value)). now apply in_map.
Qed.

Lemma map_find_assign (key : string) (value : BackendConfig) :
  forall m, map_find key (map_assign key value m) = Some value.
Proof.
  induction m as [|[k v] m IH]; simpl.
  - now rewrite compare_refl.
  - destruct (String.compare key k) eqn:E; simpl.
    + now rewrite E.
    + now rewrite compare_refl.
    + now rewrite E.
Qed.

Lemma default_registry :
  BackendRegistry_new =
  [("hatch", hatch_config); ("pdm", pdm_config); ("poetry", poetry_config);
   ("rye", rye_config); ("uv", uv_config)].
Proof. reflexivity. Qed.

(* ================================================================= *)
(** ** Catalog lookups *)

(** C9. For an engine whose registry is an ordered map: for every id
    registered with descriptor [D], [get_clean_files id] is exactly
    [D]'s [clean_files] and [get_install_command id] is [D]'s
    [install_url]; for every id that is not registered they are the empty
    sequence and the empty string.  Both are functions of the registry
    alone: they take no world, so they perform no detection, and an empty
    id is looked up like any other. *)
Theorem lookups_round_trip (this : Engine) :
  sorted (registry_ this) ->
  (forall id D, In (id, D) (registry_ this) ->
     get_clean_files this id = clean_files D /\
     get_install_command this id = install_url D) /\
  (forall id, ~ In id (keys (registry_ this)) ->
     get_clean_files this id = [] /\
     get_install_command this id = "").
Proof.
  intros Hsorted. unfold get_clean_files, get_install_command, get_backend.
  split.
  - intros id D Hin. now rewrite map_find_In with (value := D).
  - intros id Hnot. now rewrite map_find_None.
Qed.

Lemma lookups_round_trip_witness :
  sorted (registry_ (Engine_new ".")) /\
  get_clean_files (Engine_new ".") "pdm"
    = ["pdm.lock"; ".pdm-python"; "__pypackages__"] /\
  get_install_command (Engine_new ".") "hatch" = "pipx install hatch" /\
  get_clean_files (Engine_new ".") "conda" = [] /\
  get_install_command (Engine_new ".") "" = "".
Proof.
  assert (Hs : sorted (registry_ (Engine_new "."))).
  { apply built_sorted, built_default. }
  destruct (lookups_round_trip (Engine_new ".") Hs) as [Hreg Hunreg].
  split; [exact Hs|].
  split; [apply (Hreg "pdm" pdm_config); simpl; tauto|].
  split; [apply (Hreg "hatch" hatch_config); simpl; tauto|].
  split.
  - apply (Hunreg "conda"). simpl. intros H.
    repeat (destruct H as [H|H]; [discriminate H|]). exact H.
  - apply (Hunreg ""). simpl. intros H.
    repeat (destruct H as [H|H]; [discriminate H|]). exact H.
Defined.

(* ================================================================= *)
(** ** Invariants of the catalog built at startup *)

(** C10. In the registry the constructor builds: every descriptor is
    registered under its own [name], and looking that name up returns
    the descriptor; the ids are pairwise distinct; each of the eight
    command templates of every descriptor is a non-empty token list. *)
Theorem default_catalog_invariants :
  (forall id D, In (id, D) BackendRegistry_new ->
     id = name D /\
     get_backend BackendRegistry_new (name D) = Some D /\
     Forall (fun template => template <> []) (templates D)) /\
  NoDup (keys BackendRegistry_new) /\
  NoDup (map (fun entry => name (snd entry)) BackendRegistry_new).
Proof.
  split; [|split].
  - intros id D Hin. rewrite default_registry in Hin. simpl in Hin.
    repeat (destruct Hin as [Hin|Hin];
            [injection Hin as <- <-;
             split; [reflexivity|split; [reflexivity|]];
             repeat constructor; discriminate|]).
    contradiction.
  - apply sorted_NoDup, built_sorted, built_default.
  - rewrite default_registry. simpl.
    repeat (constructor; [simpl; intros H;
      repeat (destruct H as [H|H]; [discriminate H|]); exact H|]).
    constructor.
Qed.

Lemma default_catalog_invariants_witness :
  In ("uv", uv_config) BackendRegistry_new /\
  "uv" = name uv_config /\
  get_backend BackendRegistry_new (name uv_config) = Some uv_config /\
  Forall (fun template => template <> []) (templates uv_config).
Proof.
  assert (Hin : In ("uv", uv_config) BackendRegistry_new).
  { rewrite default_registry. simpl. tauto. }
  split; [exact Hin|].
  exact (proj1 default_catalog_invariants "uv" uv_config Hin).
Defined.

(* ================================================================= *)
(** ** The effect monad *)

Section EffectLemmas.

Context {P : Platform}.

Lemma popen_calls_app (a b : list Event) :
  popen_calls (a ++ b) = (popen_calls a ++ popen_calls b)%list.
Proof. apply flat_map_app. Qed.

Lemma queries_no_popen (evs : list Event) :
  forallb is_query evs = true -> popen_calls evs = [].
Proof.
  induction evs as [|ev evs IH]; simpl; [reflexivity|].
  intros H. apply andb_prop in H as [Hev Hevs].
  destruct ev; try discriminate; simpl; auto.
Qed.

Lemma world_eta (w : World P) : mkWorld (env w) (trace w) = w.
Proof. now destruct w. Qed.

(** What [observes] gives at the world it is asked about. *)
Lemma observes_run {A} (c : Eff P A) (w : World P) :
  observes c ->
  exists evs, forallb is_query evs = true /\
    c w = (fst (c w), mkWorld (env w) (trace w ++ evs)%list).
Proof.
  intros H. destruct (H w) as (evs & Hq & Hrun).
  exists evs. split; [exact Hq|]. now apply Hrun.
Qed.

Lemma observes_ret {A} (a : A) : observes (ret (P := P) a).
Proof.
  intros w. exists []. split; [reflexivity|].
  intros w2 _. unfold ret. simpl. now rewrite app_nil_r, world_eta.
Qed.

Lemma observes_bind {A B} (c : Eff P A) (k : A -> Eff P B) :
  observes c -> (forall a, observes (k a)) -> observes (bind c k).
Proof.
  intros Hc Hk w.
  destruct (Hc w) as (evs1 & Hq1 & Hrun1).
  pose proof (Hrun1 w eq_refl) as Hw.
  destruct (fst (c w)) as [a|what] eqn:Hres.
  - destruct (Hk a (mkWorld (env w) (trace w ++ evs1)%list))
      as (evs2 & Hq2 & Hrun2).
    exists (evs1 ++ evs2)%list. split.
    + rewrite forallb_app, Hq1, Hq2. reflexivity.
    + intros w2 Hw2. unfold bind.
      rewrite (Hrun1 w2 Hw2), Hw.
      rewrite (Hrun2 (mkWorld (env w2) (trace w2 ++ evs1)%list) Hw2).
      rewrite (Hrun2 (mkWorld (env w) (trace w ++ evs1)%list) eq_refl).
      simpl. now rewrite app_assoc.
  - exists evs1. split; [exact Hq1|].
    intros w2 Hw2. unfold bind.
    now rewrite (Hrun1 w2 Hw2), Hw.
Qed.

Lemma observes_exists (path : string) : observes (fs_exists (P := P) path).
Proof.
  intros w. exists [EvExists path]. split; [reflexivity|].
  intros w2 Hw2. unfold fs_exists, log. simpl. now rewrite Hw2.
Qed.

Lemma observes_slurp (path : string) : observes (fs_slurp (P := P) path).
Proof.
  intros w. exists [EvSlurp path]. split; [reflexivity|].
  intros w2 Hw2. unfold fs_slurp, log. simpl. now rewrite Hw2.
Qed.

End EffectLemmas.

Create HintDb observe.
#[local] Hint Resolve observes_ret observes_exists observes_slurp : observe.

(* ================================================================= *)
(** ** Detection and resolution only observe *)

Section Observation.

Context {P : Platform}.
Variable this : Engine.

Lemma observes_detect_by_files (nm : string) (files : list string) :
  observes (detect_by_files (P := P) this nm files).
Proof.
  induction files as [|file files IH]; simpl; auto with observe.
  apply observes_bind; [apply observes_exists|].
  intros [|]; auto with observe.
Qed.

Lemma observes_first_pass (backends : BackendRegistry) :
  observes (first_pass (P := P) this backends).
Proof.
  induction backends as [|[nm config] backends IH]; simpl; auto with observe.
  apply observes_bind; [apply observes_detect_by_files|].
  intros [found_name|]; auto with observe.
Qed.

Lemma observes_read_file (filename : string) :
  observes (read_file (P := P) filename).
Proof.
  apply observes_bind; [apply observes_slurp|].
  intros [content|]; auto with observe.
Qed.

Lemma observes_detect_backend : observes (detect_backend (P := P) this).
Proof.
  apply observes_bind; [apply observes_first_pass|].
  intros [found_name|]; auto with observe.
  apply observes_bind; [apply observes_exists|].
  intros [|]; auto with observe.
  apply observes_bind; [apply observes_read_file|].
  auto with observe.
Qed.

Lemma observes_resolve_backend (backend : string) :
  observes (resolve_backend (P := P) this backend).
Proof.
  unfold resolve_backend. destruct (negb (empty backend)); auto with observe.
  apply observes_bind; [apply observes_detect_backend|].
  intros [nm|]; auto with observe.
Qed.

(** Resolution leaves the environment alone and starts no subprocess. *)
Lemma resolve_backend_quiet (backend : string) (w w1 : World P)
    (r : outcome string) :
  resolve_backend this backend w = (r, w1) ->
  env w1 = env w /\ popen_calls (trace w1) = popen_calls (trace w).
Proof.
  intros Hrun.
  destruct (observes_run w (observes_resolve_backend backend))
    as (evs & Hq & Hw).
  rewrite Hrun in Hw. simpl in Hw. injection Hw as ->. simpl. split; [reflexivity|].
  now rewrite popen_calls_app, (queries_no_popen _ Hq), app_nil_r.
Qed.

Lemma empty_spec (s : string) : empty s = true <-> s = "".
Proof. destruct s; simpl; split; congruence. Qed.

Lemma empty_false (s : string) : empty s = false <-> s <> "".
Proof. destruct s; simpl; split; congruence. Qed.

Lemma resolve_explicit (backend : string) (w : World P) :
  backend <> "" -> resolve_backend this backend w = (Ok backend, w).
Proof.
  intros H. apply empty_false in H. unfold resolve_backend. now rewrite H.
Qed.

(** The three ways out of the prologue. *)
Lemma with_backend_unresolved (backend : string)
    (k : BackendConfig -> Eff P OperationResult) (w w1 : World P) :
  resolve_backend this backend w = (Ok "", w1) ->
  with_backend this backend k w = (Ok no_backend, w1).
Proof. intros H. unfold with_backend, bind. now rewrite H. Qed.

Lemma with_backend_unknown (backend id : string)
    (k : BackendConfig -> Eff P OperationResult) (w w1 : World P) :
  resolve_backend this backend w = (Ok id, w1) ->
  id <> "" ->
  get_backend (registry_ this) id = None ->
  with_backend this backend k w = (Ok (backend_not_found id), w1).
Proof.
  intros H Hid Hget. apply empty_false in Hid.
  unfold with_backend, bind. now rewrite H, Hid, Hget.
Qed.

Lemma with_backend_resolved (backend id : string) (config : BackendConfig)
    (k : BackendConfig -> Eff P OperationResult) (w w1 : World P) :
  resolve_backend this backend w = (Ok id, w1) ->
  id <> "" ->
  get_backend (registry_ this) id = Some config ->
  with_backend this backend k w = k config w1.
Proof.
  intros H Hid Hget. apply empty_false in Hid.
  unfold with_backend, bind. now rewrite H, Hid, Hget.
Qed.

(** Every operation is the prologue followed by its body. *)
Lemma perform_delegates (op : Operation) (backend : string) (w : World P) :
  delegates op = true ->
  perform this op backend w =
  with_backend this backend
    (fun config => execute_command (argument_list config op)) w.
Proof.
  destruct op; try discriminate; intros _; try reflexivity.
  simpl. unfold sync_packages, substitute_placeholders, with_backend, bind.
  destruct (resolve_backend this backend w) as [[id|what] w1]; [|reflexivity].
  destruct (empty id); [reflexivity|].
  destruct (get_backend (registry_ this) id); [|reflexivity].
  now rewrite app_nil_r.
Qed.

Lemma perform_prologue (op : Operation) (backend : string) :
  exists k, forall w : World P,
    perform this op backend w = with_backend this backend k w.
Proof.
  destruct (delegates op) eqn:E.
  - eexists. intros w. now apply perform_delegates.
  - destruct op; try discriminate. eexists. intros w. reflexivity.
Qed.

End Observation.

(* ================================================================= *)
(** ** Resolution *)

(** C7. For every non-empty explicit backend id, [resolve_backend]
    returns that id unchanged and leaves the world as it found it: the
    trace gains no event, so no detection query is made, and the registry
    is not consulted, so the id is returned whether or not it is
    registered. *)
Theorem explicit_backend_is_trusted {P : Platform} (this : Engine)
    (backend : string) (w : World P) :
  backend <> "" ->
  resolve_backend this backend w = (Ok backend, w).
Proof.
  destruct backend as [|c backend]; [congruence|].
  intros _. reflexivity.
Qed.

Lemma explicit_backend_is_trusted_witness :
  let w := boot (uv_project silent_failure) in
  "poetry" <> "" /\
  fst (detect_backend (Engine_new ".") w) = Ok (Some "uv") /\
  resolve_backend (Engine_new ".") "poetry" w = (Ok "poetry", w) /\
  get_backend (registry_ (Engine_new ".")) "conda" = None /\
  resolve_backend (Engine_new ".") "conda" w = (Ok "conda", w).
Proof.
  intros w.
  split; [discriminate|].
  split; [reflexivity|].
  split; [apply explicit_backend_is_trusted; discriminate|].
  split; [reflexivity|].
  apply explicit_backend_is_trusted; discriminate.
Defined.

(* ================================================================= *)
(** ** Failures of the prologue *)

Section Prologue.

Context {P : Platform}.
Variable this : Engine.

(** C4. For each of the seven operations:
    - without a hint, when detection returns absent, the operation
      returns success=false, exit_code=1, empty output and the diagnostic
      [No backend found or specified] (the claim's text up to the case of
      its first letter), and the trace gains no [popen];
    - when resolution yields an id that has no descriptor, the operation
      returns success=false, exit_code=1 and the diagnostic
      [Backend not found: ] followed by that id, and the trace gains no
      [popen];
    - in particular, for an explicit hint that is not registered the
      world is returned untouched. *)
Theorem unresolved_operations_fail (op : Operation) (w : World P) :
  (forall w1, detect_backend this w = (Ok None, w1) ->
     perform this op "" w =
       (Ok (mkOperationResult false "" "No backend found or specified" 1), w1) /\
     lowercase "No backend found or specified" = "no backend found or specified" /\
     popen_calls (trace w1) = popen_calls (trace w)) /\
  (forall backend id w1,
     resolve_backend this backend w = (Ok id, w1) ->
     id <> "" ->
     get_backend (registry_ this) id = None ->
     perform this op backend w =
       (Ok (mkOperationResult false "" ("Backend not found: " ++ id) 1), w1) /\
     popen_calls (trace w1) = popen_calls (trace w)) /\
  (forall backend,
     backend <> "" ->
     get_backend (registry_ this) backend = None ->
     perform this op backend w =
       (Ok (mkOperationResult false "" ("Backend not found: " ++ backend) 1), w)).
Proof.
  assert (Hunknown : forall backend id w1,
     resolve_backend this backend w = (Ok id, w1) ->
     id <> "" ->
     get_backend (registry_ this) id = None ->
     perform this op backend w = (Ok (backend_not_found id), w1)).
  { intros backend id w1 Hres Hid Hget.
    destruct (perform_prologue (P := P) this op backend) as [k Hk].
    rewrite Hk. now apply with_backend_unknown. }
  split; [|split].
  - intros w1 Hdet.
    assert (Hres : resolve_backend this "" w = (Ok "", w1)).
    { unfold resolve_backend, bind. simpl. now rewrite Hdet. }
    destruct (perform_prologue (P := P) this op "") as [k Hk].
    split; [|split].
    + rewrite Hk. now apply with_backend_unresolved.
    + reflexivity.
    + apply resolve_backend_quiet in Hres. apply Hres.
  - intros backend id w1 Hres Hid Hget. split.
    + now apply Hunknown.
    + apply resolve_backend_quiet in Hres. apply Hres.
  - intros backend Hne Hget.
    apply Hunknown; [now apply resolve_explicit | exact Hne | exact Hget].
Qed.

End Prologue.

Lemma unresolved_operations_fail_witness :
  let this := Engine_new "." in
  let w := boot (empty_project chatty_success) in
  let w1 := snd (detect_backend this w) in
  detect_backend this w = (Ok None, w1) /\
  perform this (OpAdd "requests" false) "" w =
    (Ok (mkOperationResult false "" "No backend found or specified" 1), w1) /\
  popen_calls (trace w1) = [] /\
  "conda" <> "" /\
  get_backend (registry_ this) "conda" = None /\
  perform this (OpRun ["pytest"]) "conda" w =
    (Ok (mkOperationResult false "" "Backend not found: conda" 1), w).
Proof.
  intros this w w1.
  assert (Hdet : detect_backend this w = (Ok None, w1)) by reflexivity.
  assert (Hne : "conda" <> "") by discriminate.
  assert (Hget : get_backend (registry_ this) "conda" = None) by reflexivity.
  destruct (unresolved_operations_fail this (OpAdd "requests" false) w)
    as (Hnone & _ & _).
  destruct (unresolved_operations_fail this (OpRun ["pytest"]) w)
    as (_ & _ & Hexplicit).
  destruct (Hnone w1 Hdet) as (Hadd & _ & Hquiet).
  split; [exact Hdet|].
  split; [exact Hadd|].
  split; [exact Hquiet|].
  split; [exact Hne|].
  split; [exact Hget|].
  exact (Hexplicit "conda" Hne Hget).
Defined.

(* ================================================================= *)
(** ** Command rendering *)

Lemma concat_empty_cons (x : string) (xs : list string) :
  String.concat "" (x :: xs) = x ++ String.concat "" xs.
Proof.
  destruct xs as [|y ys]; simpl; [now rewrite append_nil_r | reflexivity].
Qed.

Lemma concat_space_cons (x : string) (xs : list string) :
  String.concat " " (x :: xs)
  = x ++ String.concat "" (map (fun tok => " " ++ tok) xs).
Proof.
  revert x. induction xs as [|y ys IH]; intros x.
  - simpl. now rewrite append_nil_r.
  - change (String.concat " " (x :: y :: ys))
      with (x ++ " " ++ String.concat " " (y :: ys)).
    rewrite IH. cbn [map]. rewrite concat_empty_cons.
    now rewrite !append_assoc.
Qed.

(** After the first token every iteration adds a space and the token. *)
Lemma cmd_stream_loop_later (rest : list string) :
  forall i cmd_stream,
    cmd_stream_loop (S i) rest cmd_stream
    = cmd_stream
      ++ String.concat "" (map (fun tok => " " ++ tok) (map quote_token rest)).
Proof.
  induction rest as [|tok rest IH]; intros i cmd_stream.
  - simpl. now rewrite append_nil_r.
  - cbn [cmd_stream_loop map]. rewrite concat_empty_cons.
    change (Nat.ltb 0 (S i)) with true. cbv iota.
    replace (if found " " tok
             then (cmd_stream ++ " ") ++ dquote ++ tok ++ dquote
             else (cmd_stream ++ " ") ++ tok)
      with ((cmd_stream ++ " ") ++ quote_token tok)
      by (unfold quote_token; now destruct (found " " tok)).
    rewrite IH. now rewrite !append_assoc.
Qed.

(** The command string in closed form. *)
Lemma cmd_str_concat (command : list string) :
  cmd_str command = String.concat " " (map quote_token command).
Proof.
  destruct command as [|tok rest]; [reflexivity|].
  unfold cmd_str. cbn [cmd_stream_loop map].
  change (Nat.ltb 0 0) with false. cbv iota.
  replace (if found " " tok then "" ++ dquote ++ tok ++ dquote else "" ++ tok)
    with (quote_token tok)
    by (unfold quote_token; now destruct (found " " tok)).
  now rewrite cmd_stream_loop_later, concat_space_cons.
Qed.

Section Rendering.

Context {P : Platform}.
Variable this : Engine.

(** A non-empty command starts exactly one subprocess. *)
Lemma execute_command_popen (command : list string) (w : World P) :
  command <> [] ->
  exists r e,
    execute_command command w
    = (Ok r, mkWorld e (trace w ++ [EvPopen (cmd_str command)])%list).
Proof.
  destruct command as [|tok rest]; [congruence|]. intros _.
  unfold execute_command, bind, popen.
  destruct (sys_popen P (env w) (cmd_str (tok :: rest)))
    as [[[chunks status]|] e]; eexists; eexists; reflexivity.
Qed.

Lemma perform_resolved (op : Operation) (backend id : string)
    (config : BackendConfig) (w w1 : World P) :
  delegates op = true ->
  resolve_backend this backend w = (Ok id, w1) ->
  id <> "" ->
  get_backend (registry_ this) id = Some config ->
  perform this op backend w = execute_command (argument_list config op) w1.
Proof.
  intros Hop Hres Hid Hget. rewrite perform_delegates by exact Hop.
  exact (@with_backend_resolved P this backend id config
           (fun c => execute_command (argument_list c op)) w w1 Hres Hid Hget).
Qed.

(** C6. Rendering appends the caller's arguments after the template and
    leaves every template token as it is: [substitute_placeholders] is
    list concatenation; an operation on a resolved backend is
    [execute_command] applied to the chosen template followed by the
    operation's arguments; and with the built-in catalog the three
    examples of the specification give the stated argument lists. *)
Theorem rendering_appends_arguments :
  (forall cmd_template args,
     substitute_placeholders cmd_template args = (cmd_template ++ args)%list) /\
  (forall op backend id config (w w1 : World P),
     delegates op = true ->
     resolve_backend this backend w = (Ok id, w1) ->
     id <> "" ->
     get_backend (registry_ this) id = Some config ->
     perform this op backend w = execute_command (argument_list config op) w1) /\
  (forall path (w : World P),
     add_package (Engine_new path) "requests" false "uv" w
       = execute_command ["uv"; "add"; "requests"] w /\
     add_package (Engine_new path) "requests" true "uv" w
       = execute_command ["uv"; "add"; "--group"; "dev"; "requests"] w /\
     run_command (Engine_new path) ["pytest"; "-v"] "pdm" w
       = execute_command ["pdm"; "run"; "pytest"; "-v"] w).
Proof.
  split; [reflexivity|]. split.
  - intros op backend id config w w1. apply perform_resolved.
  - intros path w. repeat split.
Qed.

(** C1, as the code has it. For each of the six delegating operations on
    a resolved backend, the argument list is rendered into one command
    string: the tokens in order, separated by single spaces, a token that
    contains a space wrapped in double quotes and every other token
    copied as it is; [popen] is called exactly once, with that string. *)
Theorem command_reaches_popen_as_one_string (op : Operation)
    (backend id : string) (config : BackendConfig) (w w1 : World P) :
  delegates op = true ->
  resolve_backend this backend w = (Ok id, w1) ->
  id <> "" ->
  get_backend (registry_ this) id = Some config ->
  argument_list config op <> [] ->
  exists r w2,
    perform this op backend w = (Ok r, w2) /\
    appended w1 w2
      [EvPopen (String.concat " " (map quote_token (argument_list config op)))].
Proof.
  intros Hop Hres Hid Hget Hne.
  erewrite perform_resolved by eassumption.
  destruct (@execute_command_popen _ w1 Hne) as (r & e & Hrun).
  exists r. eexists. split; [exact Hrun|].
  unfold appended. simpl. now rewrite cmd_str_concat.
Qed.

End Rendering.

Lemma rendering_appends_arguments_witness :
  let this := Engine_new "." in
  let w := boot (uv_project chatty_success) in
  delegates (OpRemove "{} requests") = true /\
  resolve_backend this "" w = (Ok "uv", snd (detect_backend this w)) /\
  "uv" <> "" /\
  get_backend (registry_ this) "uv" = Some uv_config /\
  perform this (OpRemove "{} requests") "" w
    = execute_command ["uv"; "remove"; "{} requests"]
        (snd (detect_backend this w)).
Proof.
  intros this w.
  assert (H1 : delegates (OpRemove "{} requests") = true) by reflexivity.
  assert (H2 : resolve_backend this "" w = (Ok "uv", snd (detect_backend this w)))
    by reflexivity.
  assert (H3 : "uv" <> "") by discriminate.
  assert (H4 : get_backend (registry_ this) "uv" = Some uv_config) by reflexivity.
  split; [exact H1|]. split; [exact H2|]. split; [exact H3|].
  split; [exact H4|].
  destruct (@rendering_appends_arguments disk this) as (_ & Hgeneral & _).
  exact (Hgeneral (OpRemove "{} requests") "" "uv" uv_config w _ H1 H2 H3 H4).
Defined.

Lemma command_reaches_popen_as_one_string_witness :
  let this := Engine_new "." in
  let w := boot (uv_project chatty_success) in
  delegates (OpRun ["python"; "my script.py"]) = true /\
  resolve_backend this "pdm" w = (Ok "pdm", w) /\
  "pdm" <> "" /\
  get_backend (registry_ this) "pdm" = Some pdm_config /\
  argument_list pdm_config (OpRun ["python"; "my script.py"]) <> [] /\
  exists r w2,
    perform this (OpRun ["python"; "my script.py"]) "pdm" w = (Ok r, w2) /\
    appended w w2
      [EvPopen ("pdm run python " ++ dquote ++ "my script.py" ++ dquote)].
Proof.
  intros this w.
  assert (H1 : delegates (OpRun ["python"; "my script.py"]) = true) by reflexivity.
  assert (H2 : resolve_backend this "pdm" w = (Ok "pdm", w)) by reflexivity.
  assert (H3 : "pdm" <> "") by discriminate.
  assert (H4 : get_backend (registry_ this) "pdm" = Some pdm_config) by reflexivity.
  assert (H5 : argument_list pdm_config (OpRun ["python"; "my script.py"]) <> [])
    by discriminate.
  split; [exact H1|]. split; [exact H2|]. split; [exact H3|].
  split; [exact H4|]. split; [exact H5|].
  exact (@command_reaches_popen_as_one_string disk this
           (OpRun ["python"; "my script.py"]) "pdm" "pdm" pdm_config w w
           H1 H2 H3 H4 H5).
Defined.

(** C1, as the specification has it, fails: the argument list reaches
    [popen] as a single string, two different argument lists reach it as
    the same string, and a shell metacharacter inside a token is copied
    into that string as it is. *)
Lemma shell_string_counterexample :
  let this := Engine_new "." in
  let w := boot (uv_project chatty_success) in
  let quoted := "uv run " ++ dquote ++ "a b" ++ dquote in
  popen_calls (trace (snd (perform this (OpRun ["a b"]) "uv" w))) = [quoted] /\
  popen_calls
    (trace (snd (perform this (OpRun [dquote ++ "a"; "b" ++ dquote]) "uv" w)))
    = [quoted] /\
  ["a b"] <> [dquote ++ "a"; "b" ++ dquote] /\
  popen_calls (trace (snd (perform this (OpAdd "requests;id" false) "uv" w)))
    = ["uv add requests;id"].
Proof.
  intros this w quoted. repeat split; try reflexivity. discriminate.
Qed.

(* ================================================================= *)
(** ** Cleaning *)

Section Cleaning.

Context {P : Platform}.
Variable this : Engine.

Lemma log_of_cons (file : string) (a : attempt) (l : list (string * attempt)) :
  log_of ((file, a) :: l) = log_line file a ++ log_of l.
Proof. unfold log_of. cbn [map fst snd]. apply concat_empty_cons. Qed.

(** One iteration, in terms of the attempt on its path. *)
Lemma clean_step_attempt (st : string * bool) (file : string) (w : World P) :
  let a := fst (attempt_on this (env w) file) in
  clean_step this st file w
  = (Ok (fst st ++ log_line file a, snd st && negb (failed a)),
     mkWorld (snd (attempt_on this (env w) file))
             (trace w ++ attempt_events this (env w) [file])%list).
Proof.
  destruct st as [output success].
  unfold clean_step, try_catch, bind, fs_exists, fs_remove_all, attempt_on, log, ret.
  cbn [attempt_events env trace fst snd].
  destruct (sys_exists P (env w) (project_path_ this ++ "/" ++ file))
    as [[|]|reason]; cbn [env trace fst snd].
  - destruct (sys_remove_all P (env w) (project_path_ this ++ "/" ++ file))
      as [[u|reason] e']; cbn [fst snd failed log_line negb app].
    + now rewrite andb_true_r, <- app_assoc.
    + now rewrite andb_false_r, <- app_assoc.
  - cbn [fst snd failed log_line negb app].
    now rewrite andb_true_r, append_nil_r.
  - cbn [fst snd failed log_line negb app]. now rewrite andb_false_r.
Qed.

(** The loop, in terms of the attempts on its paths. *)
Lemma clean_loop_attempts (files : list string) :
  forall (st : string * bool) (w : World P),
  exists e,
    clean_loop this st files w
    = (Ok (fst st ++ log_of (attempts this (env w) files),
           snd st
           && negb (existsb (fun fa => failed (snd fa))
                      (attempts this (env w) files))),
       mkWorld e (trace w ++ attempt_events this (env w) files)%list).
Proof.
  induction files as [|file files IH]; intros st w.
  - exists (env w). cbn. rewrite append_nil_r, andb_true_r, app_nil_r.
    destruct st, w. reflexivity.
  - cbn [clean_loop]. unfold bind. rewrite clean_step_attempt.
    match goal with
    | |- context [clean_loop this ?st' files ?w'] =>
        destruct (IH st' w') as (e & ->)
    end.
    exists e. cbn [env trace fst snd attempts attempt_events].
    destruct (attempt_on this (env w) file) as [a e1] eqn:Ha.
    cbn [fst snd existsb]. rewrite log_of_cons, negb_orb.
    rewrite append_assoc, andb_assoc.
    f_equal. f_equal.
    rewrite app_nil_r, <- app_assoc. reflexivity.
Qed.



Lemma attempt_events_no_popen (files : list string) :
  forall e : Env P, popen_calls (attempt_events this e files) = [].
Proof.
  induction files as [|file files IH]; intros e; [reflexivity|].
  cbn [attempt_events]. unfold popen_calls in *.
  cbn [flat_map app]. rewrite flat_map_app, IH.
  now destruct (sys_exists P e (project_path_ this ++ "/" ++ file)) as [[|]|].
Qed.



End Cleaning.


(* ================================================================= *)
(** ** The result record *)

Section Results.

Context {P : Platform}.
Variable this : Engine.

Lemma synthesized_nonempty (msg : string) : synthesized msg -> msg <> "".
Proof.
  intros [->|[[id ->]|[->| ->]]]; discriminate.
Qed.

Lemma append_nonempty_r (a b : string) : b <> "" -> a ++ b <> "".
Proof.
  destruct a as [|c a]; simpl; [auto | discriminate].
Qed.

Lemma failed_attempt_logged (done : list (string * attempt)) :
  existsb (fun fa => failed (snd fa)) done = true -> log_of done <> "".
Proof.
  induction done as [|[file a] done IH]; [discriminate|].
  cbn [existsb snd]. rewrite log_of_cons. intros H.
  destruct a as [| |reason]; cbn [failed] in H.
  - apply append_nonempty_r. now apply IH.
  - discriminate.
  - discriminate.
Qed.

(** The ways a result comes out of the prologue. *)
Lemma with_backend_cases (backend : string)
    (k : BackendConfig -> Eff P OperationResult) (w w' : World P)
    (r : OperationResult) :
  with_backend this backend k w = (Ok r, w') ->
  r = no_backend \/
  (exists id, r = backend_not_found id) \/
  (exists id config w1,
     resolve_backend this backend w = (Ok id, w1) /\ id <> "" /\
     get_backend (registry_ this) id = Some config /\
     k config w1 = (Ok r, w')).
Proof.
  unfold with_backend, bind.
  destruct (resolve_backend this backend w) as [[id|what] w1] eqn:Hres;
    [|discriminate].
  destruct (empty id) eqn:Hid.
  - intros H. injection H as <- _. now left.
  - destruct (get_backend (registry_ this) id) as [config|] eqn:Hget.
    + intros H. right. right. exists id, config, w1.
      apply empty_false in Hid. auto.
    + intros H. injection H as <- _. right. left. now exists id.
Qed.

Lemma execute_command_result (command : list string) (w w' : World P)
    (r : OperationResult) :
  execute_command command w = (Ok r, w') ->
  (success r = true <-> exit_code r = 0%Z) /\
  (success r = false ->
     (synthesized (error r) /\ output r = "") \/ error r = output r).
Proof.
  unfold execute_command, bind, popen, ret, synthesized.
  destruct command as [|tok rest].
  - intros H. injection H as <- _. simpl. split; [split; discriminate|].
    intros _. left. tauto.
  - destruct (sys_popen P (env w) (cmd_str (tok :: rest)))
      as [[[chunks status]|] e]; intros H; injection H as <- _; simpl.
    + split; [apply Z.eqb_eq|].
      intros ->. now right.
    + split; [split; discriminate|]. intros _. left. tauto.
Qed.

(** The result of an operation, path by path: what resolution gave,
    whether the id is registered, and what the platform answered. *)
Lemma perform_result (op : Operation) (backend : string)
    (w w' : World P) (r : OperationResult) :
  perform this op backend w = (Ok r, w') ->
  exists id w1,
    resolve_backend this backend w = (Ok id, w1) /\
    (id = "" ->
     r = mkOperationResult false "" "No backend found or specified" 1) /\
    (id <> "" -> get_backend (registry_ this) id = None ->
     r = mkOperationResult false "" ("Backend not found: " ++ id) 1) /\
    (forall config,
       id <> "" -> get_backend (registry_ this) id = Some config ->
       if delegates op then
         match argument_list config op with
         | [] => r = mkOperationResult false "" "Empty command" 1
         | _ :: _ =>
             match fst (sys_popen P (env w1)
                          (cmd_str (argument_list config op))) with
             | None =>
                 r = mkOperationResult false "" "Failed to execute command" 1
             | Some (chunks, status) =>
                 r = mkOperationResult (Z.eqb status 0) (drain chunks)
                       (if Z.eqb status 0 then "" else drain chunks) status
             end
         end
       else
         let done := attempts this (env w1) (clean_files config) in
         let ok := negb (existsb (fun fa => failed (snd fa)) done) in
         r = mkOperationResult ok (log_of done) "" (if ok then 0 else 1)%Z /\
         (ok = false -> log_of done <> "")).
Proof.
  intros Hrun.
  assert (Hbody : exists k,
    (forall w0 : World P,
       perform this op backend w0 = with_backend this backend k w0) /\
    forall config (w1 : World P),
      k config w1 = (Ok r, w') ->
      if delegates op then
        match argument_list config op with
        | [] => r = mkOperationResult false "" "Empty command" 1
        | _ :: _ =>
            match fst (sys_popen P (env w1)
                         (cmd_str (argument_list config op))) with
            | None =>
                r = mkOperationResult false "" "Failed to execute command" 1
            | Some (chunks, status) =>
                r = mkOperationResult (Z.eqb status 0) (drain chunks)
                      (if Z.eqb status 0 then "" else drain chunks) status
            end
        end
      else
        let done := attempts this (env w1) (clean_files config) in
        let ok := negb (existsb (fun fa => failed (snd fa)) done) in
        r = mkOperationResult ok (log_of done) "" (if ok then 0 else 1)%Z /\
        (ok = false -> log_of done <> "")).
  { destruct (delegates op) eqn:Hop.
    - exists (fun config => execute_command (argument_list config op)).
      split; [intros w0; now apply perform_delegates|].
      intros config w1. unfold execute_command, bind, popen, ret.
      destruct (argument_list config op) as [|tok rest].
      + intros H. now injection H as <- _.
      + destruct (sys_popen P (env w1) (cmd_str (tok :: rest)))
          as [[[chunks status]|] e]; cbn [fst]; intros H;
          now injection H as <- _.
    - destruct op; try discriminate.
      exists (fun config =>
                bind (clean_loop this ("", true) (clean_files config))
                  (fun st => let (output, success) := st in
                     ret (mkOperationResult success output ""
                            (if success then 0 else 1)%Z))).
      split; [intros w0; reflexivity|].
      intros config w1. unfold bind.
      destruct (clean_loop_attempts this (clean_files config) ("", true) w1)
        as (e & ->).
      cbn [fst snd andb]. unfold ret. intros H. injection H as <- _.
      split; [reflexivity|].
      intros Hok. apply negb_false_iff in Hok.
      now apply failed_attempt_logged. }
  destruct Hbody as (k & Hk & Hbody).
  rewrite Hk in Hrun. unfold with_backend, bind in Hrun.
  destruct (resolve_backend this backend w) as [[id|what] w1];
    [|discriminate].
  exists id, w1. split; [reflexivity|].
  destruct (empty id) eqn:Hid.
  - apply empty_spec in Hid. subst id.
    injection Hrun as <- _.
    split; [reflexivity|]. split; intros; congruence.
  - apply empty_false in Hid.
    split; [congruence|].
    destruct (get_backend (registry_ this) id) as [config|].
    + split; [discriminate|].
      intros config0 _ Hc. injection Hc as <-. now apply Hbody.
    + injection Hrun as <- _.
      split; [reflexivity|]. discriminate.
Qed.


End Results.



(* ================================================================= *)
(** ** Detection *)

Section Detection.

Context {P : Platform}.
Variable this : Engine.

Lemma slurp_calls_app (a b : list Event) :
  slurp_calls (a ++ b) = (slurp_calls a ++ slurp_calls b)%list.
Proof. apply flat_map_app. Qed.

Lemma file_exists_calm (e : Env P) (file : string) (w : World P) :
  calm e -> env w = e ->
  file_exists (project_path_ this ++ "/" ++ file) w
  = (Ok (present this e file),
     mkWorld (env w)
       (trace w ++ [EvExists (project_path_ this ++ "/" ++ file)])%list).
Proof.
  intros Hcalm <-. unfold file_exists, fs_exists, present, log.
  destruct (Hcalm (project_path_ this ++ "/" ++ file)) as [b ->].
  reflexivity.
Qed.

Lemma detect_by_files_calm (e : Env P) (nm : string) (files : list string) :
  calm e ->
  forall w, env w = e ->
  exists evs,
    detect_by_files this nm files w
    = (Ok (if existsb (present this e) files then Some nm else None),
       mkWorld (env w) (trace w ++ evs)%list) /\
    slurp_calls evs = [] /\ popen_calls evs = [].
Proof.
  intros Hcalm. induction files as [|file files IH]; intros w Hw.
  - exists []. cbn. now rewrite app_nil_r, world_eta.
  - cbn [detect_by_files existsb]. unfold bind.
    rewrite (@file_exists_calm e file w Hcalm Hw).
    destruct (present this e file); cbn [orb].
    + eexists. split; [reflexivity|]. split; reflexivity.
    + match goal with
      | |- context [detect_by_files this nm files ?w'] =>
          destruct (IH w' Hw) as (evs & -> & Hs & Hp)
      end.
      eexists. cbn [env trace]. rewrite <- app_assoc.
      split; [reflexivity|]. cbn [app].
      split; [exact Hs | exact Hp].
Qed.

Lemma first_pass_calm (e : Env P) (backends : BackendRegistry) :
  calm e ->
  forall w, env w = e ->
  exists evs,
    first_pass this backends w
    = (Ok (option_map fst (List.find (file_signal this e) backends)),
       mkWorld (env w) (trace w ++ evs)%list) /\
    slurp_calls evs = [] /\ popen_calls evs = [].
Proof.
  intros Hcalm. induction backends as [|[nm config] backends IH]; intros w Hw.
  - exists []. cbn. now rewrite app_nil_r, world_eta.
  - cbn [first_pass List.find]. unfold bind, file_signal at 1. cbn [snd].
    destruct (@detect_by_files_calm e nm (detection_files config) Hcalm w Hw)
      as (evs1 & -> & Hs1 & Hp1).
    destruct (existsb (present this e) (detection_files config)).
    + exists evs1. auto.
    + match goal with
      | |- context [first_pass this backends ?w'] =>
          destruct (IH w' Hw) as (evs2 & -> & Hs2 & Hp2)
      end.
      exists (evs1 ++ evs2)%list. cbn [env trace]. rewrite <- app_assoc.
      split; [reflexivity|].
      now rewrite slurp_calls_app, popen_calls_app, Hs1, Hs2, Hp1, Hp2.
Qed.

Lemma detect_by_patterns_signal (content nm : string)
    (patterns : list string) :
  detect_by_patterns content nm patterns
  = if existsb (fun pattern => found pattern content) patterns
    then Some nm else None.
Proof.
  induction patterns as [|pattern patterns IH]; [reflexivity|].
  cbn [detect_by_patterns existsb].
  destruct (found pattern content); [reflexivity | exact IH].
Qed.

Lemma second_pass_find (content : string) (backends : BackendRegistry) :
  second_pass content backends
  = match List.find (pattern_signal content) backends with
    | Some entry => Some (fst entry)
    | None => None
    end.
Proof.
  induction backends as [|[nm config] backends IH]; [reflexivity|].
  cbn [second_pass List.find]. unfold pattern_signal at 1. cbn [snd].
  rewrite detect_by_patterns_signal.
  destruct (existsb _ (detection_patterns config)); [reflexivity | exact IH].
Qed.

(** The detection of the code is the detection of the specification. *)
Lemma detect_backend_calm (w : World P) :
  calm (env w) ->
  exists evs,
    detect_backend this w
    = (Ok (spec_detect this (env w)),
       mkWorld (env w) (trace w ++ evs)%list) /\
    slurp_calls evs = spec_manifest_reads this (env w) /\
    popen_calls evs = [].
Proof.
  intros Hcalm. unfold detect_backend, spec_detect, spec_manifest_reads,
    get_all_backends, bind.
  destruct (@first_pass_calm (env w) (registry_ this) Hcalm w eq_refl)
    as (evs1 & -> & Hs1 & Hp1).
  destruct (List.find (file_signal this (env w)) (registry_ this))
    as [[nm config]|]; cbn [option_map fst].
  - exists evs1. auto.
  - change (project_path_ this ++ "/pyproject.toml")
      with (project_path_ this ++ "/" ++ "pyproject.toml").
    rewrite (@file_exists_calm (env w) "pyproject.toml" (mkWorld _ _)
               Hcalm eq_refl).
    cbn [env trace].
    destruct (present this (env w) "pyproject.toml").
    + unfold read_file, fs_slurp, bind, log, ret, manifest. cbn [env trace].
      eexists. split.
      * rewrite <- second_pass_find.
        change (project_path_ this ++ "/" ++ "pyproject.toml")
          with (project_path_ this ++ "/pyproject.toml").
        destruct (sys_slurp P (env w) (project_path_ this ++ "/pyproject.toml"));
          rewrite <- !app_assoc; reflexivity.
      * rewrite !slurp_calls_app, !popen_calls_app, Hs1, Hp1. split; reflexivity.
    + exists (evs1 ++ [EvExists (project_path_ this ++ "/" ++ "pyproject.toml")])%list.
      split; [now rewrite app_assoc|].
      rewrite !slurp_calls_app, !popen_calls_app, Hs1, Hp1. split; reflexivity.
Qed.

(** In an ordered map the first entry that satisfies a test has the
    smallest key among those that do. *)
Lemma find_smallest (f : string * BackendConfig -> bool) :
  forall (backends : BackendRegistry) (entry : string * BackendConfig),
    sorted backends ->
    List.find f backends = Some entry ->
    In entry backends /\ f entry = true /\
    forall other, In other backends -> f other = true ->
      other = entry \/ string_lt (fst entry) (fst other).
Proof.
  unfold sorted.
  induction backends as [|first backends IH]; intros entry Hs Hfind;
    [discriminate|].
  inversion Hs as [|? ? Htl Hhd]; subst. cbn [List.find] in Hfind.
  destruct (f first) eqn:Hf.
  - injection Hfind as <-. split; [now left|]. split; [exact Hf|].
    intros other [->|Hin] _; [now left|]. right.
    rewrite Forall_forall in Hhd. apply Hhd. now apply in_map.
  - destruct (IH entry Htl Hfind) as (Hin & Hentry & Hmin).
    split; [now right|]. split; [exact Hentry|].
    intros other [->|Hother] Hfo; [congruence|]. now apply Hmin.
Qed.

Lemma find_none_existsb (f : string * BackendConfig -> bool)
    (backends : BackendRegistry) :
  List.find f backends = None -> existsb f backends = false.
Proof.
  induction backends as [|first backends IH]; [reflexivity|].
  cbn [List.find existsb]. destruct (f first); [discriminate|exact IH].
Qed.

Lemma find_some_existsb (f : string * BackendConfig -> bool)
    (backends : BackendRegistry) (entry : string * BackendConfig) :
  List.find f backends = Some entry -> existsb f backends = true.
Proof.
  intros H. apply existsb_exists. exists entry.
  apply find_some in H. exact H.
Qed.

(** What the specification's detection returns is the smallest matching
    id. *)
Lemma spec_detect_smallest (e : Env P) (nm : string) :
  sorted (registry_ this) ->
  spec_detect this e = Some nm ->
  exists entry,
    In entry (registry_ this) /\ fst entry = nm /\
    matching this e entry = true /\
    forall other, In other (registry_ this) ->
      matching this e other = true ->
      other = entry \/ string_lt nm (fst other).
Proof.
  intros Hs. unfold spec_detect, matching.
  destruct (List.find (file_signal this e) (registry_ this)) as [entry|] eqn:E1.
  - intros H. injection H as <-.
    rewrite (@find_some_existsb _ _ _ E1).
    destruct (@find_smallest _ _ _ Hs E1) as (Hin & Hf & Hmin).
    exists entry. auto.
  - rewrite (@find_none_existsb _ _ E1).
    destruct (present this e "pyproject.toml"); [|discriminate].
    destruct (List.find (pattern_signal (manifest this e)) (registry_ this))
      as [entry|] eqn:E2; [|discriminate].
    intros H. injection H as <-.
    destruct (@find_smallest _ _ _ Hs E2) as (Hin & Hf & Hmin).
    exists entry. cbn [andb]. auto.
Qed.

End Detection.

Lemma file_signal_spec {P : Platform} (this : Engine) (e : Env P)
    (entry : string * BackendConfig) :
  file_signal this e entry = true <->
  exists file, In file (detection_files (snd entry)) /\
               present this e file = true.
Proof. apply existsb_exists. Qed.

Lemma pattern_signal_spec (content : string) (entry : string * BackendConfig) :
  pattern_signal content entry = true <->
  exists pattern, In pattern (detection_patterns (snd entry)) /\
                  substring_of pattern content.
Proof.
  unfold pattern_signal. rewrite existsb_exists.
  split; intros (pattern & Hin & H); exists pattern; split; auto;
    now apply found_substring.
Qed.

Lemma disk_calm (d : Disk) : calm (P := disk) d.
Proof. intros path. eexists. reflexivity. Qed.

(** C3. When no status query throws, [detect_backend] returns what the
    two passes of the specification return: the id of the first
    descriptor, in the order of the map, one of whose detection files
    exists under the project path; failing that, and only if
    [pyproject.toml] exists, the id of the first descriptor one of whose
    detection patterns is a substring of the manifest; otherwise absent.
    The manifest is read once in the second case and not at all in the
    others, and the environment is left as it was.  In particular, with
    the built-in catalog, a project that contains [uv.lock], no lock file
    of another backend, and a manifest containing [poetry] is detected as
    [uv]. *)
Theorem detection_in_two_passes {P : Platform} (this : Engine) (w : World P) :
  calm (env w) ->
  (exists evs,
     detect_backend this w
     = (Ok (spec_detect this (env w)), mkWorld (env w) (trace w ++ evs)%list) /\
     slurp_calls evs = spec_manifest_reads this (env w) /\
     popen_calls evs = []) /\
  (forall entry,
     file_signal this (env w) entry = true <->
     exists file, In file (detection_files (snd entry)) /\
                  present this (env w) file = true) /\
  (forall content entry,
     pattern_signal content entry = true <->
     exists pattern, In pattern (detection_patterns (snd entry)) /\
                     substring_of pattern content) /\
  (registry_ this = BackendRegistry_new ->
   present this (env w) "uv.lock" = true ->
   present this (env w) "hatch.lock" = false ->
   present this (env w) "pdm.lock" = false ->
   present this (env w) "poetry.lock" = false ->
   present this (env w) "requirements.lock" = false ->
   present this (env w) "pyproject.toml" = true ->
   substring_of "poetry" (manifest this (env w)) ->
   fst (detect_backend this w) = Ok (Some "uv")).
Proof.
  intros Hcalm.
  destruct (detect_backend_calm this w Hcalm) as (evs & Hrun & Hs & Hp).
  split; [now exists evs|].
  split; [apply file_signal_spec|].
  split; [apply pattern_signal_spec|].
  intros Hreg Huv Hhatch Hpdm Hpoetry Hrye _ _.
  rewrite Hrun. cbn [fst]. unfold spec_detect. rewrite Hreg, default_registry.
  unfold file_signal. cbn.
  now rewrite Hhatch, Hpdm, Hpoetry, Hrye, Huv.
Qed.

Lemma detection_in_two_passes_witness :
  let this := Engine_new "." in
  let w := boot (uv_project silent_failure) in
  calm (env w) /\
  registry_ this = BackendRegistry_new /\
  present this (env w) "uv.lock" = true /\
  present this (env w) "hatch.lock" = false /\
  present this (env w) "pdm.lock" = false /\
  present this (env w) "poetry.lock" = false /\
  present this (env w) "requirements.lock" = false /\
  present this (env w) "pyproject.toml" = true /\
  substring_of "poetry" (manifest this (env w)) /\
  fst (detect_backend this w) = Ok (Some "uv").
Proof.
  intros this w.
  assert (Hcalm : calm (env w)) by apply disk_calm.
  assert (Hsub : substring_of "poetry" (manifest this (env w))).
  { exists "[tool.", "]". reflexivity. }
  destruct (detection_in_two_passes this w Hcalm) as (_ & _ & _ & Huv).
  repeat (split; [first [exact Hcalm | exact Hsub | reflexivity]|]).
  apply Huv; first [exact Hsub | reflexivity].
Defined.

(** Whatever the specification's detection returns has a signal that
    counts. *)
Lemma spec_detect_sound {P : Platform} (this : Engine) (e : Env P)
    (nm : string) :
  spec_detect this e = Some nm ->
  exists entry,
    In entry (registry_ this) /\ fst entry = nm /\
    matching this e entry = true.
Proof.
  unfold spec_detect, matching.
  destruct (List.find (file_signal this e) (registry_ this)) as [entry|] eqn:E1.
  - intros H. injection H as <-.
    rewrite (@find_some_existsb _ _ _ E1).
    apply find_some in E1 as [Hin Hf]. exists entry. auto.
  - rewrite (@find_none_existsb _ _ E1).
    destruct (present this e "pyproject.toml"); [|discriminate].
    destruct (List.find (pattern_signal (manifest this e)) (registry_ this))
      as [entry|] eqn:E2; [|discriminate].
    intros H. injection H as <-.
    apply find_some in E2 as [Hin Hf]. exists entry. cbn [andb]. auto.
Qed.

(** As soon as some descriptor has a signal that counts, the
    specification's detection returns an id. *)
Lemma spec_detect_complete {P : Platform} (this : Engine) (e : Env P)
    (entry : string * BackendConfig) :
  In entry (registry_ this) ->
  matching this e entry = true ->
  exists nm, spec_detect this e = Some nm.
Proof.
  unfold spec_detect, matching. intros Hin.
  destruct (List.find (file_signal this e) (registry_ this)) as [first|] eqn:E1.
  - intros _. now exists (fst first).
  - rewrite (@find_none_existsb _ _ E1). intros Hm.
    apply andb_prop in Hm as [Hpresent Hpattern]. rewrite Hpresent.
    destruct (List.find (pattern_signal (manifest this e)) (registry_ this))
      as [first|] eqn:E2.
    + now exists (fst first).
    + exfalso. apply find_none_existsb in E2.
      assert (Hex : existsb (pattern_signal (manifest this e)) (registry_ this)
                    = true).
      { apply existsb_exists. now exists entry. }
      congruence.
Qed.

(** C8. Detection is a function of the registry and the file system: it
    leaves the environment as it was, a second call returns what the
    first returned, and so does a call in any world with the same
    environment.  The map is visited in strictly ascending order of its
    keys, for every registry built by registrations, the built-in one
    being hatch, pdm, poetry, rye, uv.  When no status query throws, the
    id detected is the smallest among the ids whose signal counts: those
    with an existing detection file when there is one, otherwise those
    with a pattern in the existing manifest.  Such an id is returned as
    soon as some descriptor has a signal that counts, and absent is
    returned only when none has.  With the built-in catalog, a project
    containing [pdm.lock] and [uv.lock] (and no [hatch.lock]) is detected
    as [pdm], and a project without detection files whose manifest
    contains the patterns of both hatch and uv is detected as [hatch]. *)
Theorem detection_is_deterministic_and_ordered {P : Platform}
    (this : Engine) (w : World P) :
  env (snd (detect_backend this w)) = env w /\
  fst (detect_backend this (snd (detect_backend this w)))
    = fst (detect_backend this w) /\
  (forall w2, env w2 = env w ->
     fst (detect_backend this w2) = fst (detect_backend this w)) /\
  (forall m, built m -> sorted m) /\
  keys BackendRegistry_new = ["hatch"; "pdm"; "poetry"; "rye"; "uv"] /\
  (sorted (registry_ this) -> calm (env w) ->
   forall nm, fst (detect_backend this w) = Ok (Some nm) ->
   exists entry,
     In entry (registry_ this) /\ fst entry = nm /\
     matching this (env w) entry = true /\
     forall other, In other (registry_ this) ->
       matching this (env w) other = true ->
       other = entry \/ string_lt nm (fst other)) /\
  (registry_ this = BackendRegistry_new -> calm (env w) ->
   present this (env w) "pdm.lock" = true ->
   present this (env w) "uv.lock" = true ->
   present this (env w) "hatch.lock" = false ->
   fst (detect_backend this w) = Ok (Some "pdm")) /\
  (sorted (registry_ this) -> calm (env w) ->
   forall entry, In entry (registry_ this) ->
     matching this (env w) entry = true ->
     exists winner,
       In winner (registry_ this) /\
       matching this (env w) winner = true /\
       fst (detect_backend this w) = Ok (Some (fst winner)) /\
       (winner = entry \/ string_lt (fst winner) (fst entry))) /\
  (calm (env w) ->
   (forall entry, In entry (registry_ this) ->
      matching this (env w) entry = false) <->
   fst (detect_backend this w) = Ok None) /\
  (registry_ this = BackendRegistry_new -> calm (env w) ->
   (forall file,
      In file (detection_files_in_order BackendRegistry_new) ->
      present this (env w) file = false) ->
   present this (env w) "pyproject.toml" = true ->
   substring_of "[tool.hatch" (manifest this (env w)) ->
   substring_of "[tool.uv]" (manifest this (env w)) ->
   fst (detect_backend this w) = Ok (Some "hatch")).
Proof.
  destruct (observes_detect_backend (P := P) this w) as (evs & _ & Hsame).
  pose proof (Hsame w eq_refl) as Hw.
  assert (Henv : env (snd (detect_backend this w)) = env w)
    by now rewrite Hw.
  split; [exact Henv|].
  split; [now rewrite (Hsame _ Henv)|].
  split; [intros w2 Hw2; now rewrite (Hsame _ Hw2)|].
  split; [exact built_sorted|].
  split; [reflexivity|].
  split; [|split; [|split; [|split]]].
  - intros Hs Hcalm nm Hnm.
    destruct (detect_backend_calm this w Hcalm) as (evs' & Hrun & _).
    rewrite Hrun in Hnm. cbn [fst] in Hnm. injection Hnm as Hnm.
    now apply spec_detect_smallest.
  - intros Hreg Hcalm Hpdm Huv Hhatch.
    destruct (detect_backend_calm this w Hcalm) as (evs' & Hrun & _).
    rewrite Hrun. cbn [fst]. unfold spec_detect.
    rewrite Hreg, default_registry. unfold file_signal. cbn.
    now rewrite Hhatch, Hpdm.
  - intros Hs Hcalm entry Hin Hmatch.
    destruct (detect_backend_calm this w Hcalm) as (evs' & Hrun & _).
    destruct (spec_detect_complete this (env w) entry Hin Hmatch) as [nm Hnm].
    destruct (spec_detect_smallest this (env w) Hs Hnm)
      as (winner & Hwin & Hfst & Hwm & Hmin).
    exists winner. split; [exact Hwin|]. split; [exact Hwm|].
    split; [rewrite Hrun; cbn [fst]; now rewrite Hnm, Hfst|].
    destruct (Hmin entry Hin Hmatch) as [->|Hlt]; [now left|].
    right. now rewrite Hfst.
  - intros Hcalm.
    destruct (detect_backend_calm this w Hcalm) as (evs' & Hrun & _).
    rewrite Hrun. cbn [fst]. split.
    + intros Hnone. destruct (spec_detect this (env w)) as [nm|] eqn:Hnm;
        [|reflexivity].
      destruct (spec_detect_sound this (env w) Hnm) as (entry & Hin & _ & Hm).
      rewrite (Hnone entry Hin) in Hm. discriminate.
    + intros Hnone entry Hin.
      destruct (matching this (env w) entry) eqn:Hm; [|reflexivity].
      destruct (spec_detect_complete this (env w) entry Hin Hm) as [nm Hnm].
      congruence.
  - intros Hreg Hcalm Hfiles Hmanifest Hhatch Huv.
    destruct (detect_backend_calm this w Hcalm) as (evs' & Hrun & _).
    rewrite Hrun. cbn [fst]. unfold spec_detect.
    rewrite Hreg, default_registry. unfold file_signal. cbn [List.find snd].
    rewrite default_registry in Hfiles.
    cbn [detection_files_in_order flat_map snd detection_files
         hatch_config pdm_config poetry_config rye_config uv_config app]
      in Hfiles.
    cbn [detection_files hatch_config pdm_config poetry_config rye_config
         uv_config existsb].
    rewrite !Hfiles by (simpl; tauto). cbn [orb].
    rewrite Hmanifest. unfold pattern_signal at 1.
    cbn [snd detection_patterns hatch_config existsb].
    apply found_substring in Hhatch. now rewrite Hhatch.
Qed.

Lemma detection_is_deterministic_and_ordered_witness :
  let this := Engine_new "." in
  let w := boot (two_locks_project silent_failure) in
  let w2 := boot (manifest_project silent_failure) in
  sorted (registry_ this) /\
  calm (env w) /\
  present this (env w) "pdm.lock" = true /\
  present this (env w) "uv.lock" = true /\
  present this (env w) "hatch.lock" = false /\
  fst (detect_backend this w) = Ok (Some "pdm") /\
  (exists entry,
    In entry (registry_ this) /\ fst entry = "pdm" /\
    matching this (env w) entry = true /\
    forall other, In other (registry_ this) ->
      matching this (env w) other = true ->
      other = entry \/ string_lt "pdm" (fst other)) /\
  calm (env w2) /\
  In ("uv", uv_config) (registry_ this) /\
  matching this (env w2) ("uv", uv_config) = true /\
  (exists winner,
     In winner (registry_ this) /\
     matching this (env w2) winner = true /\
     fst (detect_backend this w2) = Ok (Some (fst winner)) /\
     (winner = ("uv", uv_config) \/ string_lt (fst winner) "uv")) /\
  fst (detect_backend this w2) = Ok (Some "hatch").
Proof.
  intros this w w2.
  assert (Hs : sorted (registry_ this)) by apply built_sorted, built_default.
  assert (Hcalm : calm (env w)) by apply disk_calm.
  assert (Hcalm2 : calm (env w2)) by apply disk_calm.
  assert (Hin : In ("uv", uv_config) (registry_ this)).
  { cbn [registry_ this Engine_new]. rewrite default_registry. simpl. tauto. }
  assert (Hm : matching this (env w2) ("uv", uv_config) = true)
    by reflexivity.
  destruct (detection_is_deterministic_and_ordered this w)
    as (_ & _ & _ & _ & _ & Hsmall & Hpdm & _).
  destruct (detection_is_deterministic_and_ordered this w2)
    as (_ & _ & _ & _ & _ & _ & _ & Hwins & _ & Hhatch).
  assert (Hdet : fst (detect_backend this w) = Ok (Some "pdm")).
  { apply Hpdm; first [exact Hcalm | reflexivity]. }
  repeat (split; [first [exact Hs | exact Hcalm | exact Hdet | reflexivity]|]).
  split; [exact (Hsmall Hs Hcalm "pdm" Hdet)|].
  split; [exact Hcalm2|]. split; [exact Hin|]. split; [exact Hm|].
  split; [exact (Hwins Hs Hcalm2 ("uv", uv_config) Hin Hm)|].
  apply Hhatch; try reflexivity; try exact Hcalm2.
  - intros file Hfile. simpl in Hfile.
    repeat (destruct Hfile as [<-|Hfile]; [reflexivity|]). contradiction.
  - exists "[tool.uv] ", ".version]". reflexivity.
  - exists "", " [tool.hatch.version]". reflexivity.
Defined.

(** The two kinds of signal do not compete: a lock file decides before
    the manifest is looked at, whatever the manifest says, and among
    manifest patterns the smaller id is found first. *)
Example lock_file_before_manifest :
  fst (detect_backend (Engine_new ".") (boot (mixed_project silent_failure)))
  = Ok (Some "uv").
Proof. reflexivity. Qed.

Example manifest_patterns_in_key_order :
  fst (detect_backend (Engine_new ".") (boot (manifest_project silent_failure)))
  = Ok (Some "hatch").
Proof. reflexivity. Qed.

(* ================================================================= *)
(** * Further properties *)

(* ================================================================= *)
(** ** Registration *)

Lemma compare_lt_gt (a b : string) :
  String.compare a b = Lt -> String.compare b a = Gt.
Proof. intros H. now rewrite String.compare_antisym, H. Qed.

Lemma compare_gt_lt' (a b : string) :
  String.compare a b = Gt -> String.compare b a = Lt.
Proof. intros H. now rewrite String.compare_antisym, H. Qed.

(** Turns the comparisons among the hypotheses into equalities and
    [string_lt] facts and looks for a cycle. *)
Ltac order :=
  repeat match goal with
  | H : String.compare _ _ = Eq |- _ =>
      apply String.compare_eq_iff in H; subst
  | H : String.compare _ _ = Gt |- _ => apply compare_gt_lt in H
  | H : String.compare ?a ?b = Lt |- _ => change (string_lt a b) in H
  end;
  try congruence;
  match goal with
  | H : string_lt ?a ?a |- _ => exfalso; exact (string_lt_irrefl H)
  | H1 : string_lt ?a ?b, H2 : string_lt ?b ?a |- _ =>
      exfalso; exact (string_lt_irrefl (string_lt_trans H1 H2))
  | H1 : string_lt ?a ?b, H2 : string_lt ?b ?c, H3 : string_lt ?c ?a |- _ =>
      exfalso;
      exact (string_lt_irrefl (string_lt_trans (string_lt_trans H1 H2) H3))
  end.

(** Rewrites with the comparisons that are known. *)
Ltac crunch :=
  simpl;
  repeat match goal with
  | H : String.compare ?a ?b = _ |- context [String.compare ?a ?b] =>
      rewrite H; simpl
  end.

(** Splits on the comparisons that are not. *)
Ltac compare_cases :=
  crunch;
  repeat (match goal with
          | |- context [String.compare ?a ?b] =>
              destruct (String.compare a b) eqn:?
          end; crunch).

Lemma map_find_assign_other (key other : string) (value : BackendConfig) :
  other <> key ->
  forall m, map_find other (map_assign key value m) = map_find other m.
Proof.
  intros Hne. induction m as [|[k v] m IH].
  - compare_cases; solve [reflexivity | order].
  - simpl. destruct (String.compare key k) eqn:E1; compare_cases;
      solve [reflexivity | order | exact IH].
Qed.

(** X1. Insert and look up: after [register_backend nm config], looking
    [nm] up returns [config], whatever was registered before, and every
    other name is looked up as before. *)
Theorem register_then_get (nm : string) (config : BackendConfig)
    (reg : BackendRegistry) :
  get_backend (register_backend nm config reg) nm = Some config /\
  forall other, other <> nm ->
    get_backend (register_backend nm config reg) other = get_backend reg other.
Proof.
  unfold get_backend, register_backend. split.
  - apply map_find_assign.
  - intros other Hne. now apply map_find_assign_other.
Qed.

Lemma register_then_get_witness :
  "pdm" <> "uv" /\
  get_backend (register_backend "uv" hatch_config BackendRegistry_new) "pdm"
  = Some pdm_config /\
  get_backend (register_backend "uv" hatch_config BackendRegistry_new) "uv"
  = Some hatch_config.
Proof.
  assert (Hne : "pdm" <> "uv") by discriminate.
  destruct (register_then_get "uv" hatch_config BackendRegistry_new)
    as [Hsame Hother].
  split; [exact Hne|]. split; [|exact Hsame].
  rewrite (Hother "pdm" Hne). reflexivity.
Defined.

Lemma keys_assign_present (key : string) (value : BackendConfig) :
  forall m, map_find key m <> None ->
       keys (map_assign key value m) = keys m.
Proof.
  induction m as [|[k v] m IH]; simpl; [congruence|].
  destruct (String.compare key k) eqn:E; simpl; intros H.
  - reflexivity.
  - congruence.
  - f_equal. now apply IH.
Qed.

(** X2. Registering under a name a second time replaces the descriptor:
    the registry is the one the second registration alone would give,
    and when the name was already registered the list of names is what
    it was. *)
Theorem register_overwrites (nm : string) (first second : BackendConfig)
    (reg : BackendRegistry) :
  register_backend nm second (register_backend nm first reg)
  = register_backend nm second reg /\
  (get_backend reg nm <> None ->
   get_backend_names (register_backend nm second reg) = get_backend_names reg).
Proof.
  unfold register_backend, get_backend. split.
  - induction reg as [|[k v] reg IH]; simpl.
    + now rewrite compare_refl.
    + destruct (String.compare nm k) eqn:E; simpl.
      * now rewrite E.
      * now rewrite compare_refl.
      * rewrite E. now rewrite IH.
  - intros H. unfold get_backend_names.
    assert (Hfold : forall (l : BackendRegistry) acc,
      fold_left (fun names pair => (names ++ [fst pair])%list) l acc
      = (acc ++ keys l)%list).
    { induction l as [|p l IHl]; intros acc; simpl.
      - now rewrite app_nil_r.
      - rewrite IHl, <- app_assoc. reflexivity. }
    rewrite !Hfold. now rewrite keys_assign_present.
Qed.

Lemma register_overwrites_witness :
  get_backend BackendRegistry_new "rye" <> None /\
  get_backend_names (register_backend "rye" uv_config BackendRegistry_new)
  = ["hatch"; "pdm"; "poetry"; "rye"; "uv"].
Proof.
  assert (H : get_backend BackendRegistry_new "rye" <> None) by discriminate.
  split; [exact H|].
  rewrite (proj2 (register_overwrites "rye" uv_config uv_config
                    BackendRegistry_new) H).
  reflexivity.
Defined.

(** X3. Registrations under different names commute: the registry does
    not depend on the order in which its descriptors were registered. *)
Theorem registrations_commute (n1 n2 : string) (c1 c2 : BackendConfig)
    (reg : BackendRegistry) :
  n1 <> n2 ->
  register_backend n1 c1 (register_backend n2 c2 reg)
  = register_backend n2 c2 (register_backend n1 c1 reg).
Proof.
  unfold register_backend. intros Hne.
  induction reg as [|[k v] reg IH].
  - compare_cases; solve [reflexivity | order].
  - simpl.
    destruct (String.compare n2 k) eqn:E2;
      destruct (String.compare n1 k) eqn:E1; compare_cases;
      solve [reflexivity | order | now rewrite IH].
Qed.

Lemma registrations_commute_witness :
  "uv" <> "pdm" /\
  register_backend "uv" uv_config (register_backend "pdm" pdm_config [])
  = register_backend "pdm" pdm_config (register_backend "uv" uv_config []).
Proof.
  assert (Hne : "uv" <> "pdm") by discriminate.
  split; [exact Hne|].
  exact (registrations_commute uv_config pdm_config [] Hne).
Defined.

(* ================================================================= *)
(** ** Listing and availability *)

Lemma get_backend_names_keys (reg : BackendRegistry) :
  get_backend_names reg = keys reg.
Proof.
  unfold get_backend_names.
  assert (Hfold : forall (l : BackendRegistry) acc,
    fold_left (fun names pair => (names ++ [fst pair])%list) l acc
    = (acc ++ keys l)%list).
  { induction l as [|p l IHl]; intros acc; simpl.
    - now rewrite app_nil_r.
    - rewrite IHl, <- app_assoc. reflexivity. }
  apply Hfold.
Qed.

Lemma in_keys_find (nm : string) (reg : BackendRegistry) :
  sorted reg -> (In nm (keys reg) <-> map_find nm reg <> None).
Proof.
  intros Hs. split.
  - intros Hin. apply in_map_iff in Hin as ([k v] & Hk & Hin).
    simpl in Hk. subst k.
    now rewrite map_find_In with (value := v).
  - intros H. destruct (map_find nm reg) as [v|] eqn:E; [|congruence].
    apply map_find_Some in E. change nm with (fst (nm, v)).
    now apply in_map.
Qed.

(** X4. For an engine whose registry is an ordered map,
    [get_available_backends] lists the registered names in strictly
    ascending order, each once, and a name is in the list exactly when
    [is_backend_available] accepts it. *)
Theorem available_backends_listing (this : Engine) :
  sorted (registry_ this) ->
  StronglySorted string_lt (get_available_backends this) /\
  NoDup (get_available_backends this) /\
  forall nm, In nm (get_available_backends this)
             <-> is_backend_available this nm = true.
Proof.
  intros Hs. unfold get_available_backends, is_backend_available, get_backend.
  rewrite get_backend_names_keys.
  split; [exact Hs|]. split; [now apply sorted_NoDup|].
  intros nm. rewrite (in_keys_find nm Hs).
  destruct (map_find nm (registry_ this)); split; congruence.
Qed.

Lemma available_backends_listing_witness :
  sorted (registry_ (Engine_new ".")) /\
  get_available_backends (Engine_new ".")
  = ["hatch"; "pdm"; "poetry"; "rye"; "uv"] /\
  (In "rye" (get_available_backends (Engine_new "."))
   <-> is_backend_available (Engine_new ".") "rye" = true).
Proof.
  assert (Hs : sorted (registry_ (Engine_new "."))).
  { apply built_sorted, built_default. }
  split; [exact Hs|]. split; [reflexivity|].
  exact (proj2 (proj2 (available_backends_listing (Engine_new ".") Hs)) "rye").
Defined.

Section DetectedIsRegistered.

Context {P : Platform}.
Variable this : Engine.

Lemma detect_by_files_name (nm : string) (files : list string) :
  forall (w w' : World P) found_name,
    detect_by_files this nm files w = (Ok (Some found_name), w') ->
    found_name = nm.
Proof.
  induction files as [|file files IH]; intros w w' found_name;
    cbn [detect_by_files]; cbv zeta.
  - unfold ret. congruence.
  - unfold bind.
    destruct (file_exists (project_path_ this ++ "/" ++ file) w)
      as [[[|]|what] w1]; [unfold ret; congruence | apply IH | congruence].
Qed.

Lemma first_pass_key (backends : BackendRegistry) :
  forall (w w' : World P) found_name,
    first_pass this backends w = (Ok (Some found_name), w') ->
    In found_name (keys backends).
Proof.
  induction backends as [|[nm config] backends IH]; intros w w' found_name;
    cbn [first_pass].
  - unfold ret. congruence.
  - unfold bind.
    destruct (detect_by_files this nm (detection_files config) w)
      as [[[found_nm|]|what] w1] eqn:E; [| |congruence].
    + unfold ret. intros H. injection H as <- _.
      left. symmetry. exact (detect_by_files_name _ _ _ E).
    + intros H. right. exact (IH _ _ _ H).
Qed.

Lemma second_pass_key (content : string) (backends : BackendRegistry)
    (found_name : string) :
  second_pass content backends = Some found_name ->
  In found_name (keys backends).
Proof.
  induction backends as [|[nm config] backends IH]; cbn [second_pass];
    [congruence|].
  rewrite detect_by_patterns_signal.
  destruct (existsb _ (detection_patterns config)).
  - intros H. injection H as <-. now left.
  - intros H. right. now apply IH.
Qed.

Lemma detect_backend_key (w w' : World P) (found_name : string) :
  detect_backend this w = (Ok (Some found_name), w') ->
  In found_name (keys (registry_ this)).
Proof.
  unfold detect_backend, get_all_backends, bind.
  destruct (first_pass this (registry_ this) w)
    as [[[nm|]|what] w1] eqn:E1; [| |congruence].
  - unfold ret. intros H. injection H as <- _. exact (first_pass_key _ _ E1).
  - destruct (file_exists (project_path_ this ++ "/pyproject.toml") w1)
      as [[[|]|what] w2]; [|unfold ret; congruence|congruence].
    destruct (read_file (P := P) (project_path_ this ++ "/pyproject.toml") w2)
      as [[content|what] w3]; [|congruence].
    unfold ret. intros H. injection H as H _. now apply second_pass_key in H.
Qed.

(** X5. What detection returns is registered: for an engine whose
    registry is an ordered map, an id returned by [detect_backend] has a
    descriptor; a delegating operation called without a hint then is
    [execute_command] on that descriptor's argument list, and never the
    [Backend not found] failure. *)
Theorem detected_backend_is_available (w w' : World P) (found_name : string) :
  sorted (registry_ this) ->
  detect_backend this w = (Ok (Some found_name), w') ->
  is_backend_available this found_name = true /\
  exists config,
    get_backend (registry_ this) found_name = Some config /\
    (found_name <> "" ->
     forall op, delegates op = true ->
       perform this op "" w = execute_command (argument_list config op) w').
Proof.
  intros Hs Hdet.
  assert (Hfind : get_backend (registry_ this) found_name <> None).
  { apply (in_keys_find found_name Hs). exact (detect_backend_key _ Hdet). }
  unfold is_backend_available.
  destruct (get_backend (registry_ this) found_name) as [config|] eqn:Hget;
    [|congruence].
  split; [reflexivity|]. exists config. split; [reflexivity|].
  intros Hne op Hop.
  assert (Hres : resolve_backend this "" w = (Ok found_name, w')).
  { unfold resolve_backend, bind. simpl. now rewrite Hdet. }
  exact (@perform_resolved P this op "" found_name config w w' Hop Hres Hne Hget).
Qed.

End DetectedIsRegistered.

Lemma detected_backend_is_available_witness :
  let this := Engine_new "." in
  let w := boot (two_locks_project chatty_success) in
  sorted (registry_ this) /\
  detect_backend this w = (Ok (Some "pdm"), snd (detect_backend this w)) /\
  is_backend_available this "pdm" = true.
Proof.
  intros this w.
  assert (Hs : sorted (registry_ this)) by apply built_sorted, built_default.
  assert (Hdet : detect_backend this w
                 = (Ok (Some "pdm"), snd (detect_backend this w)))
    by reflexivity.
  split; [exact Hs|]. split; [exact Hdet|].
  exact (proj1 (@detected_backend_is_available disk this w _ "pdm" Hs Hdet)).
Defined.

(* ================================================================= *)
(** ** Exceptions and side effects of the operations *)

Section Conduct.

Context {P : Platform}.
Variable this : Engine.

Lemma execute_command_returns (command : list string) (w : World P) :
  exists r w', execute_command command w = (Ok r, w').
Proof.
  unfold execute_command, bind, popen, ret.
  destruct command as [|tok rest]; [eexists; eexists; reflexivity|].
  destruct (sys_popen P (env w) (cmd_str (tok :: rest)))
    as [[[chunks status]|] e]; eexists; eexists; reflexivity.
Qed.

(** The body of every operation returns a result. *)
Lemma perform_body (op : Operation) (backend : string) :
  exists k,
    (forall w : World P,
       perform this op backend w = with_backend this backend k w) /\
    (forall config (w1 : World P), exists r w', k config w1 = (Ok r, w')) /\
    (forall config (w1 w' : World P) r,
       k config w1 = (r, w') ->
       if delegates op
       then remove_calls (trace w') = remove_calls (trace w1) /\
            (popen_calls (trace w') = popen_calls (trace w1) \/
             exists cmd,
               popen_calls (trace w') = (popen_calls (trace w1) ++ [cmd])%list)
       else popen_calls (trace w') = popen_calls (trace w1)).
Proof.
  destruct (delegates op) eqn:Hop.
  - exists (fun config => execute_command (argument_list config op)).
    split; [intros w; now apply perform_delegates|].
    split; [intros config w1; apply execute_command_returns|].
    intros config w1 w' r.
    unfold execute_command, bind, popen, ret.
    destruct (argument_list config op) as [|tok rest].
    + intros H. injection H as _ <-. auto.
    + destruct (sys_popen P (env w1) (cmd_str (tok :: rest)))
        as [[[chunks status]|] e]; intros H; injection H as _ <-;
        cbn [trace]; unfold remove_calls, popen_calls;
        rewrite !flat_map_app; cbn [flat_map app];
        (split; [now rewrite app_nil_r|]); right; eexists; reflexivity.
  - destruct op; try discriminate.
    exists (fun config =>
              bind (clean_loop this ("", true) (clean_files config))
                (fun st => let (output, success) := st in
                   ret (mkOperationResult success output ""
                          (if success then 0 else 1)%Z))).
    split; [intros w; reflexivity|].
    split.
    + intros config w1. unfold bind.
      destruct (clean_loop_attempts this (clean_files config) ("", true) w1)
        as (e & ->).
      eexists. eexists. reflexivity.
    + intros config w1 w' r. unfold bind.
      destruct (clean_loop_attempts this (clean_files config) ("", true) w1)
        as (e & ->).
      cbn [fst snd]. unfold ret. intros H. injection H as _ <-. cbn [trace].
      now rewrite popen_calls_app, attempt_events_no_popen, app_nil_r.
Qed.

Lemma queries_no_remove (evs : list Event) :
  forallb is_query evs = true -> remove_calls evs = [].
Proof.
  induction evs as [|ev evs IH]; simpl; [reflexivity|].
  intros H. apply andb_prop in H as [Hev Hevs].
  destruct ev; try discriminate; simpl; auto.
Qed.

(** X6. An operation throws exactly when it is called without a hint and
    detection throws, and then it throws the same error; with an explicit
    hint every operation, [clean_project] included, returns a result
    whatever the file system and the shell do. *)
Theorem operations_throw_only_from_detection (op : Operation)
    (backend : string) (w : World P) :
  (forall what w',
     perform this op backend w = (Raise what, w') <->
     backend = "" /\ detect_backend this w = (Raise what, w')) /\
  (backend <> "" -> exists r w', perform this op backend w = (Ok r, w')).
Proof.
  destruct (perform_body op backend) as (k & Hk & Hret & _).
  assert (Hexplicit : backend <> "" ->
                      exists r w', perform this op backend w = (Ok r, w')).
  { intros Hne. rewrite Hk. unfold with_backend, bind.
    rewrite (resolve_explicit this w Hne).
    destruct (empty backend); [eexists; eexists; reflexivity|].
    destruct (get_backend (registry_ this) backend) as [config|];
      [apply Hret | eexists; eexists; reflexivity]. }
  split; [|exact Hexplicit].
  intros what w'. split.
  - intros Hrun. destruct backend as [|c backend].
    + split; [reflexivity|].
      rewrite Hk in Hrun. unfold with_backend, resolve_backend, bind in Hrun.
      cbn [empty negb] in Hrun.
      destruct (detect_backend this w) as [[[nm|]|what0] w1].
      * unfold ret in Hrun.
        destruct (empty nm); [discriminate|].
        destruct (get_backend (registry_ this) nm) as [config|];
          [|discriminate].
        destruct (Hret config w1) as (r & w2 & Hr). congruence.
      * discriminate.
      * injection Hrun as -> ->. reflexivity.
    + destruct Hexplicit as (r & w2 & Hr); [discriminate|]. congruence.
  - intros [-> Hdet]. rewrite Hk.
    unfold with_backend, resolve_backend, bind. cbn [empty negb].
    now rewrite Hdet.
Qed.

(** X7. What the operations never do: add, remove, sync, run, list and
    version never request a removal and start at most one subprocess;
    clean never starts a subprocess.  This holds on every path, failing
    and throwing ones included. *)
Theorem operations_keep_to_their_effects (op : Operation) (backend : string)
    (w w' : World P) (r : outcome OperationResult) :
  perform this op backend w = (r, w') ->
  if delegates op
  then remove_calls (trace w') = remove_calls (trace w) /\
       (popen_calls (trace w') = popen_calls (trace w) \/
        exists cmd, popen_calls (trace w') = (popen_calls (trace w) ++ [cmd])%list)
  else popen_calls (trace w') = popen_calls (trace w).
Proof.
  destruct (perform_body op backend) as (k & Hk & _ & Heffects).
  rewrite Hk. unfold with_backend, bind.
  destruct (observes_run w (observes_resolve_backend this backend))
    as (evs & Hq & Hres).
  rewrite Hres.
  assert (Hp : popen_calls (trace w ++ evs) = popen_calls (trace w)).
  { now rewrite popen_calls_app, (queries_no_popen _ Hq), app_nil_r. }
  assert (Hr : remove_calls (trace w ++ evs) = remove_calls (trace w)).
  { unfold remove_calls. rewrite flat_map_app.
    fold (remove_calls evs). now rewrite (queries_no_remove evs Hq), app_nil_r. }
  assert (Hstay : forall r0 : outcome OperationResult,
    (r0, mkWorld (env w) (trace w ++ evs)%list) = (r, w') ->
    if delegates op
    then remove_calls (trace w') = remove_calls (trace w) /\
         (popen_calls (trace w') = popen_calls (trace w) \/
          exists cmd,
            popen_calls (trace w') = (popen_calls (trace w) ++ [cmd])%list)
    else popen_calls (trace w') = popen_calls (trace w)).
  { intros r0 H. injection H as _ <-. cbn [trace].
    destruct (delegates op); auto. }
  destruct (fst (resolve_backend this backend w)) as [id|what].
  - unfold ret. destruct (empty id); [apply Hstay|].
    destruct (get_backend (registry_ this) id) as [config|];
      [|apply Hstay].
    intros Hrun. specialize (Heffects _ _ _ _ Hrun). cbn [trace] in Heffects.
    destruct (delegates op).
    + rewrite Hr, Hp in Heffects. exact Heffects.
    + now rewrite Hp in Heffects.
  - apply Hstay.
Qed.

End Conduct.

Lemma operations_throw_only_from_detection_witness :
  let this := Engine_new "." in
  let w := mkWorld (P := stormy) (locked_project chatty_success) [] in
  perform this OpClean "" w
  = (Raise "Permission denied", snd (detect_backend this w)) /\
  "poetry" <> "" /\
  exists r w', perform this OpClean "poetry" w = (Ok r, w').
Proof.
  intros this w.
  destruct (@operations_throw_only_from_detection stormy this OpClean "" w)
    as [Hiff _].
  destruct (@operations_throw_only_from_detection stormy this OpClean "poetry" w)
    as [_ Hexplicit].
  assert (Hne : "poetry" <> "") by discriminate.
  split; [|split; [exact Hne | exact (Hexplicit Hne)]].
  apply Hiff. split; reflexivity.
Defined.

Lemma operations_keep_to_their_effects_witness :
  let this := Engine_new "." in
  let w := boot (uv_project noisy_failure) in
  let run := perform this (OpAdd "requests" true) "" w in
  run = (fst run, snd run) /\
  remove_calls (trace (snd run)) = [] /\
  popen_calls (trace (snd run)) = ["uv add --group dev requests"].
Proof.
  intros this w run.
  assert (Hrun : run = (fst run, snd run)) by reflexivity.
  pose proof (@operations_keep_to_their_effects disk this
                (OpAdd "requests" true) "" w _ _ Hrun) as [Hremove _].
  split; [exact Hrun|]. split; [exact Hremove | reflexivity].
Defined.

(* ================================================================= *)
(** ** The result of a subprocess *)

Lemma drain_concat (chunks : list string) :
  drain chunks = String.concat "" chunks.
Proof.
  unfold drain.
  assert (H : forall l acc,
            fold_left String.append l acc = acc ++ String.concat "" l).
  { induction l as [|chunk l IH]; intros acc.
    - simpl. now rewrite append_nil_r.
    - cbn [fold_left]. rewrite IH, concat_empty_cons.
      now rewrite append_assoc. }
  apply H.
Qed.

(** X9. What [execute_command] makes of a subprocess.  For a non-empty
    command, [popen] is called once with the command string.  If the
    pipe cannot be opened the result is the [Failed to execute command]
    failure with exit code 1.  Otherwise the output is the chunks read
    from the pipe, concatenated in order; the exit code is the value of
    [pclose], unchanged; success holds exactly when that value is 0; and
    the error text is empty on success and a second copy of the output
    otherwise. *)
Theorem subprocess_result {P : Platform} (command : list string)
    (w : World P) :
  command <> [] ->
  exists r e,
    execute_command command w
    = (Ok r, mkWorld e (trace w ++ [EvPopen (cmd_str command)])%list) /\
    e = snd (sys_popen P (env w) (cmd_str command)) /\
    match fst (sys_popen P (env w) (cmd_str command)) with
    | None => r = mkOperationResult false "" "Failed to execute command" 1
    | Some (chunks, status) =>
        output r = String.concat "" chunks /\
        exit_code r = status /\
        success r = Z.eqb status 0 /\
        error r = (if Z.eqb status 0 then "" else String.concat "" chunks)
    end.
Proof.
  destruct command as [|tok rest]; [congruence|]. intros _.
  unfold execute_command, bind, popen, ret.
  destruct (sys_popen P (env w) (cmd_str (tok :: rest)))
    as [[[chunks status]|] e]; eexists; eexists;
    (split; [reflexivity|]); (split; [reflexivity|]); cbn [fst].
  - cbn [output exit_code success error]. rewrite drain_concat. auto.
  - reflexivity.
Qed.

Lemma subprocess_result_witness :
  let w := boot (uv_project noisy_failure) in
  ["uv"; "sync"] <> [] /\
  fst (execute_command ["uv"; "sync"] w)
  = Ok (mkOperationResult false ("error: no such package" ++ nl)
          ("error: no such package" ++ nl) 512).
Proof.
  intros w.
  assert (Hne : ["uv"; "sync"] <> []) by discriminate.
  split; [exact Hne|].
  destruct (subprocess_result (P := disk) w Hne) as (r & e & Hrun & _ & Hr).
  rewrite Hrun. cbn [fst]. cbn in Hr.
  destruct r as [s o er c]. cbn in Hr. destruct Hr as (-> & -> & -> & ->).
  reflexivity.
Defined.

(* ================================================================= *)
(** ** Detection from the manifest alone *)

Lemma found_in_empty (pattern : string) :
  pattern <> "" -> found pattern "" = false.
Proof. destruct pattern; [congruence | reflexivity]. Qed.

Lemma found_empty_pattern (s : string) : found "" s = true.
Proof. apply found_substring. exists "", s. reflexivity. Qed.

Lemma existsb_false_find (f : string * BackendConfig -> bool)
    (backends : BackendRegistry) :
  existsb f backends = false -> List.find f backends = None.
Proof.
  induction backends as [|first backends IH]; [reflexivity|].
  cbn [existsb List.find]. destruct (f first); [discriminate | exact IH].
Qed.

Lemma no_pattern_in_empty (m : BackendRegistry) :
  patterns_nonempty m -> existsb (pattern_signal "") m = false.
Proof.
  induction 1 as [|entry entries Hentry _ IH]; [reflexivity|].
  cbn [existsb]. rewrite IH, orb_false_r.
  unfold pattern_signal.
  induction Hentry as [|pattern patterns Hp _ IHp]; [reflexivity|].
  cbn [existsb]. now rewrite (found_in_empty Hp), IHp.
Qed.

(** X10. A manifest that cannot be opened is read as the empty text, and
    in the empty text no non-empty pattern occurs: when no status query
    throws, no detection file exists, and the manifest is unreadable or
    empty, detection returns absent for every registry whose patterns
    are non-empty.  The empty pattern, on the other hand, occurs in every
    text. *)
Theorem blank_manifest_detects_nothing {P : Platform} (this : Engine)
    (w : World P) :
  calm (env w) ->
  patterns_nonempty (registry_ this) ->
  existsb (file_signal this (env w)) (registry_ this) = false ->
  (sys_slurp P (env w) (project_path_ this ++ "/pyproject.toml") = None \/
   sys_slurp P (env w) (project_path_ this ++ "/pyproject.toml") = Some "") ->
  fst (detect_backend this w) = Ok None /\
  forall content, found "" content = true.
Proof.
  intros Hcalm Hpat Hfiles Hblank.
  split; [|exact found_empty_pattern].
  destruct (detect_backend_calm this w Hcalm) as (evs & -> & _).
  cbn [fst]. f_equal. unfold spec_detect.
  rewrite (existsb_false_find _ _ Hfiles).
  destruct (present this (env w) "pyproject.toml"); [|reflexivity].
  assert (Hm : manifest this (env w) = "").
  { unfold manifest. now destruct Hblank as [-> | ->]. }
  rewrite Hm.
  replace (List.find (pattern_signal "") (registry_ this)) with
    (@None (string * BackendConfig)); [reflexivity|].
  symmetry. now apply existsb_false_find, no_pattern_in_empty.
Qed.

Lemma default_patterns_nonempty : patterns_nonempty BackendRegistry_new.
Proof.
  rewrite default_registry. unfold patterns_nonempty.
  repeat constructor; discriminate.
Qed.

Lemma blank_manifest_detects_nothing_witness :
  let this := Engine_new "." in
  let w := boot (blank_manifest_project chatty_success) in
  calm (env w) /\
  patterns_nonempty (registry_ this) /\
  existsb (file_signal this (env w)) (registry_ this) = false /\
  sys_slurp disk (env w) (project_path_ this ++ "/pyproject.toml") = Some "" /\
  fst (detect_backend this w) = Ok None.
Proof.
  intros this w.
  assert (H1 : calm (env w)) by apply disk_calm.
  assert (H2 : patterns_nonempty (registry_ this))
    by apply default_patterns_nonempty.
  assert (H3 : existsb (file_signal this (env w)) (registry_ this) = false)
    by reflexivity.
  assert (H4 : sys_slurp disk (env w) (project_path_ this ++ "/pyproject.toml")
               = Some "") by reflexivity.
  repeat (split; [assumption|]).
  exact (proj1 (blank_manifest_detects_nothing this w H1 H2 H3 (or_intror H4))).
Defined.

(* ================================================================= *)
(** ** The option loop of the command line *)

Lemma option_word_false (arg : string) :
  option_word arg = false ->
  String.eqb arg "--dev" = false /\
  String.eqb arg "--backend" = false /\
  String.eqb arg "--path" = false.
Proof.
  unfold option_word. intros H.
  apply orb_false_elim in H as [H Hpath].
  apply orb_false_elim in H as [Hdev Hbackend]. auto.
Qed.

(** X11. Arguments that are none of [--dev], [--backend] and [--path]
    pass through the option loop: they become the positional arguments,
    all of them and in their order, and the options keep the values they
    had. *)
Theorem plain_arguments_are_positional (rest : list string) (o : Options) :
  forallb (fun arg => negb (option_word arg)) rest = true ->
  parse_options rest o
  = mkOptions (opt_project_path o) (opt_backend o) (opt_dev o)
      (opt_args o ++ rest)%list.
Proof.
  revert o. induction rest as [|arg rest IH]; intros o H.
  - cbn. rewrite app_nil_r. now destruct o.
  - cbn [forallb] in H. apply andb_prop in H as [Harg Hrest].
    apply negb_true_iff, option_word_false in Harg
      as (Hdev & Hbackend & Hpath).
    cbn [parse_options]. rewrite Hdev.
    destruct rest as [|next rest'].
    + cbn. reflexivity.
    + rewrite Hbackend, Hpath. rewrite (IH _ Hrest).
      cbn [opt_project_path opt_backend opt_dev opt_args].
      now rewrite <- app_assoc.
Qed.

Lemma plain_arguments_are_positional_witness :
  forallb (fun arg => negb (option_word arg)) ["pytest"; "-v"; "tests"] = true /\
  parse_options ["pytest"; "-v"; "tests"] initial_options
  = mkOptions "." "" false ["pytest"; "-v"; "tests"].
Proof.
  assert (H : forallb (fun arg => negb (option_word arg))
                ["pytest"; "-v"; "tests"] = true) by reflexivity.
  split; [exact H|].
  exact (plain_arguments_are_positional ["pytest"; "-v"; "tests"]
           initial_options H).
Defined.

(** The loop, by induction on the number of arguments left. *)
Lemma parse_options_ind (Q : list string -> Options -> Options -> Prop) :
  (forall o, Q [] o o) ->
  (forall arg rest o,
     (forall o', Q rest o' (parse_options rest o')) ->
     (forall next rest', rest = next :: rest' ->
        forall o', Q rest' o' (parse_options rest' o')) ->
     Q (arg :: rest) o (parse_options (arg :: rest) o)) ->
  forall rest o, Q rest o (parse_options rest o).
Proof.
  intros Hnil Hcons rest.
  assert (H : forall n (rest0 : list string), List.length rest0 <= n ->
                forall o, Q rest0 o (parse_options rest0 o)).
  { induction n as [|n IH]; intros rest0 Hlen o;
      destruct rest0 as [|arg rest']; try apply Hnil; simpl in Hlen;
      [lia|].
    apply Hcons.
    - intros o'. apply IH. lia.
    - intros next rest'' -> o'. apply IH. simpl in Hlen. lia. }
  intros o. now apply (H (List.length rest)).
Qed.

(** X12. What can be a positional argument: [--dev] never is, so it can
    never be handed on to the command of [run]; [--backend] and [--path]
    are positional only as the very last argument, where no value
    follows them. *)
Theorem option_words_among_positionals (rest : list string) :
  let o := parse_options rest initial_options in
  ~ In "--dev" (opt_args o) /\
  (In "--backend" (opt_args o) -> last rest "" = "--backend") /\
  (In "--path" (opt_args o) -> last rest "" = "--path").
Proof.
  assert (H : forall rest o,
    (In "--dev" (opt_args (parse_options rest o)) -> In "--dev" (opt_args o)) /\
    (forall word, word = "--backend" \/ word = "--path" ->
       In word (opt_args (parse_options rest o)) ->
       In word (opt_args o) \/ last rest "" = word)).
  { apply (parse_options_ind
      (fun rest o o' =>
         (In "--dev" (opt_args o') -> In "--dev" (opt_args o)) /\
         (forall word, word = "--backend" \/ word = "--path" ->
            In word (opt_args o') ->
            In word (opt_args o) \/ last rest "" = word))).
    - intros o. split; auto.
    - intros arg rest0 o IH1 IH2. cbn [parse_options].
      destruct (String.eqb arg "--dev") eqn:Hdev.
      + destruct (IH1 (mkOptions (opt_project_path o) (opt_backend o) true
                         (opt_args o))) as [Hd Hw].
        split; [exact Hd|]. intros word Hword Hin.
        destruct (Hw word Hword Hin) as [Hin'|Hlast]; [now left|].
        right. destruct rest0 as [|next rest'].
        * cbn in Hlast. destruct Hword; subst; discriminate.
        * exact Hlast.
      + destruct rest0 as [|next rest'].
        * cbn [parse_options opt_args]. split.
          -- intros Hin. apply in_app_or in Hin as [Hin|[Heq|[]]]; [exact Hin|].
             subst arg. discriminate.
          -- intros word Hword Hin.
             apply in_app_or in Hin as [Hin|[Heq|[]]]; [now left|].
             right. cbn. exact Heq.
        * assert (Hskip : forall o',
            opt_args o' = opt_args o ->
            (In "--dev" (opt_args (parse_options rest' o')) ->
             In "--dev" (opt_args o)) /\
            (forall word, word = "--backend" \/ word = "--path" ->
               In word (opt_args (parse_options rest' o')) ->
               In word (opt_args o) \/ last (arg :: next :: rest') "" = word)).
          { intros o' Ho'.
            destruct (IH2 next rest' eq_refl o') as [Hd Hw].
            rewrite Ho' in Hd, Hw. split; [exact Hd|].
            intros word Hword Hin.
            destruct (Hw word Hword Hin) as [Hin'|Hlast]; [now left|].
            right. destruct rest' as [|third rest''].
            - cbn in Hlast. destruct Hword; subst; discriminate.
            - exact Hlast. }
          destruct (String.eqb arg "--backend") eqn:Hbackend;
            [|destruct (String.eqb arg "--path") eqn:Hpath].
          -- now apply Hskip.
          -- now apply Hskip.
          -- destruct (IH1 (mkOptions (opt_project_path o) (opt_backend o)
                              (opt_dev o) (opt_args o ++ [arg])%list))
               as [Hd Hw].
             cbn [opt_args] in Hd, Hw. split.
             ++ intros Hin. apply Hd in Hin.
                apply in_app_or in Hin as [Hin|[Heq|[]]]; [exact Hin|].
                subst arg. discriminate.
             ++ intros word Hword Hin.
                destruct (Hw word Hword Hin) as [Hin'|Hlast]; [|now right].
                apply in_app_or in Hin' as [Hin'|[Heq|[]]]; [now left|].
                subst arg. destruct Hword; subst; discriminate. }
  intros o. destruct (H rest initial_options) as [Hd Hw]. fold o in Hd, Hw.
  split; [|split].
  - intros Hin. exact (Hd Hin).
  - intros Hin. destruct (Hw "--backend" (or_introl eq_refl) Hin) as [[]|Hl].
    exact Hl.
  - intros Hin. destruct (Hw "--path" (or_intror eq_refl) Hin) as [[]|Hl].
    exact Hl.
Qed.

Lemma option_words_among_positionals_witness :
  let o := parse_options ["pytest"; "--dev"; "--backend"] initial_options in
  opt_args o = ["pytest"; "--backend"] /\
  In "--backend" (opt_args o) /\
  last ["pytest"; "--dev"; "--backend"] "" = "--backend".
Proof.
  intros o.
  assert (Hin : In "--backend" (opt_args o)) by (right; left; reflexivity).
  split; [reflexivity|]. split; [exact Hin|].
  exact (proj1 (proj2 (option_words_among_positionals
                         ["pytest"; "--dev"; "--backend"])) Hin).
Defined.

Lemma parse_options_keeps (rest : list string) : forall o,
  (~ In "--dev" rest -> opt_dev (parse_options rest o) = opt_dev o) /\
  (~ In "--backend" rest ->
   opt_backend (parse_options rest o) = opt_backend o) /\
  (~ In "--path" rest ->
   opt_project_path (parse_options rest o) = opt_project_path o).
Proof.
  apply (parse_options_ind
    (fun rest o o' =>
       (~ In "--dev" rest -> opt_dev o' = opt_dev o) /\
       (~ In "--backend" rest -> opt_backend o' = opt_backend o) /\
       (~ In "--path" rest -> opt_project_path o' = opt_project_path o))).
  - intros o. auto.
  - intros arg rest0 o IH1 IH2. cbn [parse_options].
    destruct (String.eqb arg "--dev") eqn:Hdev.
    + apply String.eqb_eq in Hdev. subst arg.
      destruct (IH1 (mkOptions (opt_project_path o) (opt_backend o) true
                       (opt_args o))) as (_ & Hb & Hp).
      cbn [opt_backend opt_project_path] in Hb, Hp.
      split; [intros H; exfalso; apply H; now left|].
      split; intros H; [apply Hb|apply Hp]; intros Hin; apply H; now right.
    + destruct rest0 as [|next rest'].
      * cbn. auto.
      * destruct (String.eqb arg "--backend") eqn:Hbackend;
          [|destruct (String.eqb arg "--path") eqn:Hpath].
        -- apply String.eqb_eq in Hbackend. subst arg.
           destruct (IH2 next rest' eq_refl
                       (mkOptions (opt_project_path o) next (opt_dev o)
                          (opt_args o))) as (Hd & _ & Hp).
           cbn [opt_dev opt_project_path] in Hd, Hp.
           split; [|split]; intros H.
           ++ apply Hd. intros Hin. apply H. right. now right.
           ++ exfalso. apply H. now left.
           ++ apply Hp. intros Hin. apply H. right. now right.
        -- apply String.eqb_eq in Hpath. subst arg.
           destruct (IH2 next rest' eq_refl
                       (mkOptions next (opt_backend o) (opt_dev o)
                          (opt_args o))) as (Hd & Hb & _).
           cbn [opt_dev opt_backend] in Hd, Hb.
           split; [|split]; intros H.
           ++ apply Hd. intros Hin. apply H. right. now right.
           ++ apply Hb. intros Hin. apply H. right. now right.
           ++ exfalso. apply H. now left.
        -- destruct (IH1 (mkOptions (opt_project_path o) (opt_backend o)
                            (opt_dev o) (opt_args o ++ [arg])%list))
             as (Hd & Hb & Hp).
           cbn [opt_dev opt_backend opt_project_path] in Hd, Hb, Hp.
           split; [|split]; intros H; [apply Hd|apply Hb|apply Hp];
             intros Hin; apply H; now right.
Qed.

(** X13. An option keeps its default unless its flag occurs among the
    arguments: without [--dev] the development flag is off, without
    [--backend] the backend hint is empty, so the backend is detected,
    and without [--path] the project path is the current directory. *)
Theorem options_default_without_flag (rest : list string) :
  let o := parse_options rest initial_options in
  (~ In "--dev" rest -> opt_dev o = false) /\
  (~ In "--backend" rest -> opt_backend o = "") /\
  (~ In "--path" rest -> opt_project_path o = ".").
Proof.
  intros o. exact (parse_options_keeps rest initial_options).
Qed.

Lemma options_default_without_flag_witness :
  let o := parse_options ["requests"; "--dev"; "--path"; "proj"]
             initial_options in
  ~ In "--backend" ["requests"; "--dev"; "--path"; "proj"] /\
  opt_backend o = "" /\
  opt_dev o = true /\ opt_project_path o = "proj".
Proof.
  intros o.
  assert (H : ~ In "--backend" ["requests"; "--dev"; "--path"; "proj"]).
  { simpl. intros Hin.
    repeat (destruct Hin as [Hin|Hin]; [discriminate Hin|]). exact Hin. }
  split; [exact H|]. split; [|split; reflexivity].
  exact (proj1 (proj2 (options_default_without_flag
                         ["requests"; "--dev"; "--path"; "proj"])) H).
Defined.

(* ================================================================= *)
(** ** The command line *)

(** Decides the tests of [main] on a command word that is known. *)
Ltac decide_words :=
  repeat match goal with
  | |- context [String.eqb ?a ?b] =>
      let v := eval vm_compute in (String.eqb a b) in
      change (String.eqb a b) with v
  end; cbv iota.

Lemma output_result_plain (result : OperationResult) :
  output_result result
  = mkExit (exit_code result) (output result) (error result).
Proof.
  unfold output_result.
  now destruct (output result), (error result).
Qed.

Lemma print_lines_concat (items : list string) : forall cout,
  print_lines items cout
  = cout ++ String.concat "" (map (fun item => item ++ nl) items).
Proof.
  unfold print_lines.
  induction items as [|item items IH]; intros cout.
  - simpl. now rewrite append_nil_r.
  - cbn [fold_left map]. rewrite IH, concat_empty_cons.
    now rewrite !append_assoc.
Qed.

Section CommandLine.

Context {P : Platform}.


(** [main] on a command that is an engine operation. *)
Lemma main_runs_operation (prog command : string)
    (rest : list string) (op : Operation) (w : World P) :
  let o := parse_options rest initial_options in
  requested command o = Some op ->
  main (prog :: command :: rest) w
  = bind (perform (Engine_new (opt_project_path o)) op (opt_backend o))
      (fun result =>
         ret (mkExit (exit_code result) (output result) (error result))) w.
Proof.
  intros o. unfold requested.
  assert (Hprint : forall c : Eff P OperationResult,
    bind c (fun result => ret (output_result result)) w
    = bind c (fun result =>
                ret (mkExit (exit_code result) (output result) (error result)))
        w).
  { intros c. unfold bind. destruct (c w) as [[r|what] w']; [|reflexivity].
    now rewrite output_result_plain. }
  repeat match goal with
  | |- context [String.eqb command ?word] =>
      destruct (String.eqb_spec command word) as [->|_]
  end; try discriminate;
    unfold main; cbv zeta; fold o; decide_words.
  - destruct (opt_args o) as [|package others]; [discriminate|].
    intros H. injection H as <-. apply Hprint.
  - destruct (opt_args o) as [|package others]; [discriminate|].
    intros H. injection H as <-. apply Hprint.
  - intros H. injection H as <-. apply Hprint.
  - destruct (opt_args o) as [|first others] eqn:Hargs; [discriminate|].
    intros H. injection H as <-. apply Hprint.
  - intros H. injection H as <-. apply Hprint.
  - intros H. injection H as <-. apply Hprint.
  - intros H. injection H as <-. apply Hprint.
Qed.

(** X15. For add, remove, sync, run, list, version and clean, [main] is
    the engine operation on the parsed options followed by printing:
    the engine is built on the [--path] value, the operation gets the
    [--backend] value as hint, add and remove take the first positional
    argument and ignore the others, run takes them all; the value
    returned is the result's exit code, the standard output receives the
    result's output and the standard error its error text.  [main]
    leaves the world as the operation left it and throws exactly when
    the operation throws. *)
Theorem main_delegates_to_engine (prog command : string)
    (rest : list string) (op : Operation) (w : World P) :
  let o := parse_options rest initial_options in
  let engine := Engine_new (opt_project_path o) in
  requested command o = Some op ->
  main (prog :: command :: rest) w
  = bind (perform engine op (opt_backend o))
      (fun result =>
         ret (mkExit (exit_code result) (output result) (error result))) w /\
  snd (main (prog :: command :: rest) w)
  = snd (perform engine op (opt_backend o) w) /\
  forall what,
    fst (main (prog :: command :: rest) w) = Raise what <->
    fst (perform engine op (opt_backend o) w) = Raise what.
Proof.
  intros o engine Hreq.
  rewrite (main_runs_operation prog command rest w Hreq). fold o engine.
  split; [reflexivity|]. unfold bind.
  destruct (perform engine op (opt_backend o) w) as [[result|what0] w'];
    cbn [fst snd ret].
  - split; [reflexivity|]. intros what. split; discriminate.
  - split; [reflexivity|]. intros what. split; intros H; injection H as ->;
      reflexivity.
Qed.

End CommandLine.


Lemma main_delegates_to_engine_witness :
  let w := boot (uv_project chatty_success) in
  let rest := ["requests"; "flask"; "--dev"; "--backend"; "pdm"] in
  requested "add" (parse_options rest initial_options)
  = Some (OpAdd "requests" true) /\
  main ("uvstart-engine" :: "add" :: rest) w
  = (Ok (mkExit 0 ("ok" ++ nl) ""),
     mkWorld (env w) [EvPopen "pdm add --dev requests"]).
Proof.
  intros w rest.
  assert (H : requested "add" (parse_options rest initial_options)
              = Some (OpAdd "requests" true)) by reflexivity.
  split; [exact H|].
  rewrite (proj1 (main_delegates_to_engine "uvstart-engine" "add" rest w H)).
  reflexivity.
Defined.

Lemma default_descriptor_complete (id : string) (config : BackendConfig) :
  get_backend BackendRegistry_new id = Some config ->
  install_url config <> "" /\
  Forall (fun template => template <> []) (templates config).
Proof.
  intros H. apply map_find_Some in H. rewrite default_registry in H.
  simpl in H.
  repeat (destruct H as [H|H];
          [injection H as _ <-; split; [discriminate|];
           repeat constructor; discriminate|]).
  contradiction.
Qed.

Lemma argument_list_nonempty (config : BackendConfig) (op : Operation) :
  Forall (fun template => template <> []) (templates config) ->
  delegates op = true ->
  argument_list config op <> [].
Proof.
  intros Ht Hop. unfold templates in Ht.
  repeat match goal with
  | H : Forall _ (_ :: _) |- _ => inversion H; subst; clear H
  end.
  destruct op as [package [|]|package|[|]|argv| | |]; try discriminate;
    cbn [argument_list]; try assumption;
    match goal with
    | |- (?t ++ _)%list <> [] => destruct t; [congruence|discriminate]
    end.
Qed.

Section CommandLineResults.

Context {P : Platform}.

(** X16. What the user sees of a subprocess.  For a delegating command
    with an explicit, built-in backend, [main] starts one subprocess,
    returns the value of [pclose] unchanged and prints the captured
    output on the standard output; when that value is not 0 the same
    text is printed on the standard error as well. *)
Theorem subprocess_output_reaches_both_streams (prog command : string)
    (rest : list string) (op : Operation) (config : BackendConfig)
    (chunks : list string) (status : Z) (e : Env P) (w : World P) :
  let o := parse_options rest initial_options in
  requested command o = Some op ->
  delegates op = true ->
  opt_backend o <> "" ->
  get_backend BackendRegistry_new (opt_backend o) = Some config ->
  sys_popen P (env w) (cmd_str (argument_list config op))
  = (Some (chunks, status), e) ->
  let text := String.concat "" chunks in
  main (prog :: command :: rest) w
  = (Ok (mkExit status text (if Z.eqb status 0 then "" else text)),
     mkWorld e (trace w ++ [EvPopen (cmd_str (argument_list config op))])%list).
Proof.
  intros o Hreq Hop Hne Hget Hpopen text.
  rewrite (main_runs_operation prog command rest w Hreq). fold o.
  unfold bind at 1.
  rewrite (@perform_resolved P (Engine_new (opt_project_path o)) op
             (opt_backend o) (opt_backend o) config w w Hop
             (resolve_explicit _ w Hne) Hne Hget).
  assert (Hargs : argument_list config op <> []).
  { apply argument_list_nonempty; [|exact Hop].
    exact (proj2 (default_descriptor_complete _ Hget)). }
  unfold execute_command, bind, popen, ret.
  destruct (argument_list config op) as [|tok args]; [congruence|].
  rewrite Hpopen. cbn [exit_code output error].
  rewrite drain_concat. reflexivity.
Qed.

(** X17. A command that needs a positional argument and gets none
    returns 1 with its own message on the standard error and nothing on
    the standard output, before the engine is asked anything: no
    detection, no subprocess, even when [--backend] is given. *)
Theorem missing_argument_is_refused (prog command : string)
    (rest : list string) (w : World P) :
  opt_args (parse_options rest initial_options) = [] ->
  In command ["add"; "remove"; "run"; "install-cmd"; "clean-files"] ->
  main (prog :: command :: rest) w
  = (Ok (mkExit 1 ""
           ((if String.eqb command "run" then "Error: Command required"
             else if (String.eqb command "add" || String.eqb command "remove")%bool
                  then "Error: Package name required"
                  else "Error: Backend name required") ++ nl)), w).
Proof.
  intros Hargs Hin. simpl in Hin.
  repeat (destruct Hin as [<-|Hin]); try contradiction;
    unfold main; cbv zeta; rewrite Hargs; decide_words; reflexivity.
Qed.

(** X18. The two lookup commands treat an unknown backend differently:
    [install-cmd] returns 1 with [Error: Unknown backend: <name>] on the
    standard error, [clean-files] returns 0 and prints nothing.  For a
    built-in backend [install-cmd] prints its install command and
    [clean-files] its cleanup paths, one per line, and both return 0.
    Neither touches the file system. *)
Theorem lookup_commands (prog name0 : string) (rest others : list string)
    (w : World P) :
  opt_args (parse_options rest initial_options) = name0 :: others ->
  main (prog :: "install-cmd" :: rest) w
  = (Ok match get_backend BackendRegistry_new name0 with
        | Some config => mkExit 0 (install_url config ++ nl) ""
        | None => mkExit 1 "" ("Error: Unknown backend: " ++ name0 ++ nl)
        end, w) /\
  main (prog :: "clean-files" :: rest) w
  = (Ok match get_backend BackendRegistry_new name0 with
        | Some config =>
            mkExit 0
              (String.concat "" (map (fun file => file ++ nl)
                                   (clean_files config))) ""
        | None => mkExit 0 "" ""
        end, w).
Proof.
  intros Hargs. split.
  - unfold main. cbv zeta. rewrite Hargs. decide_words.
    unfold get_install_command. cbn [registry_ Engine_new].
    destruct (get_backend BackendRegistry_new name0) as [config|] eqn:Hget.
    + destruct (default_descriptor_complete _ Hget) as [Hurl _].
      apply empty_false in Hurl. now rewrite Hurl.
    + reflexivity.
  - unfold main. cbv zeta. rewrite Hargs. decide_words.
    unfold get_clean_files. cbn [registry_ Engine_new].
    rewrite print_lines_concat.
    destruct (get_backend BackendRegistry_new name0) as [config|];
      reflexivity.
Qed.

(** X19. The two informational commands.  [backends] prints the
    registered names in ascending order, one per line, returns 0 and
    touches nothing.  [detect], when no status query throws, prints the
    id the two passes find and returns 0, or prints [none] and returns
    1; it leaves the file system as it was, starts no subprocess, and
    ignores [--backend] and [--dev]. *)
Theorem informational_commands (prog : string) (rest : list string)
    (w : World P) :
  let engine := Engine_new (opt_project_path (parse_options rest initial_options)) in
  main (prog :: "backends" :: rest) w
  = (Ok (mkExit 0 ("hatch" ++ nl ++ "pdm" ++ nl ++ "poetry" ++ nl
                   ++ "rye" ++ nl ++ "uv" ++ nl) ""), w) /\
  (calm (env w) ->
   exists evs,
     main (prog :: "detect" :: rest) w
     = (Ok match spec_detect engine (env w) with
           | Some nm => mkExit 0 (nm ++ nl) ""
           | None => mkExit 1 ("none" ++ nl) ""
           end,
        mkWorld (env w) (trace w ++ evs)%list) /\
     popen_calls evs = [] /\ remove_calls evs = []).
Proof.
  intros engine. split; [reflexivity|].
  intros Hcalm.
  destruct (detect_backend_calm engine w Hcalm) as (evs & Hrun & _ & Hp).
  destruct (observes_run w (observes_detect_backend (P := P) engine))
    as (evs' & Hq & Hrun').
  rewrite Hrun in Hrun'. cbn [fst] in Hrun'.
  injection Hrun' as Hevs. apply app_inv_head in Hevs. subst evs'.
  exists evs. split; [|split; [exact Hp | now apply queries_no_remove]].
  unfold main. cbv zeta. decide_words. fold engine.
  unfold bind. rewrite Hrun.
  now destruct (spec_detect engine (env w)).
Qed.

End CommandLineResults.

Lemma subprocess_output_reaches_both_streams_witness :
  let w := boot (uv_project noisy_failure) in
  let rest := ["--backend"; "uv"; "--dev"] in
  let text := "error: no such package" ++ nl in
  requested "sync" (parse_options rest initial_options) = Some (OpSync true) /\
  delegates (OpSync true) = true /\
  opt_backend (parse_options rest initial_options) <> "" /\
  get_backend BackendRegistry_new (opt_backend (parse_options rest initial_options))
  = Some uv_config /\
  main ("uvstart-engine" :: "sync" :: rest) w
  = (Ok (mkExit 512 text text),
     mkWorld (env w) [EvPopen "uv sync --group dev"]).
Proof.
  intros w rest text.
  assert (H1 : requested "sync" (parse_options rest initial_options)
               = Some (OpSync true)) by reflexivity.
  assert (H2 : delegates (OpSync true) = true) by reflexivity.
  assert (H3 : opt_backend (parse_options rest initial_options) <> "")
    by discriminate.
  assert (H4 : get_backend BackendRegistry_new
                 (opt_backend (parse_options rest initial_options))
               = Some uv_config) by reflexivity.
  assert (H5 : sys_popen disk (env w)
                 (cmd_str (argument_list uv_config (OpSync true)))
               = (Some (["error: "; "no such package" ++ nl], 512%Z), env w))
    by reflexivity.
  repeat (split; [assumption|]).
  exact (@subprocess_output_reaches_both_streams disk "uvstart-engine" "sync"
           rest (OpSync true) uv_config _ _ _ w H1 H2 H3 H4 H5).
Defined.

Lemma missing_argument_is_refused_witness :
  let w := boot (uv_project chatty_success) in
  let rest := ["--backend"; "uv"; "--dev"] in
  opt_args (parse_options rest initial_options) = [] /\
  In "run" ["add"; "remove"; "run"; "install-cmd"; "clean-files"] /\
  main ("uvstart-engine" :: "run" :: rest) w
  = (Ok (mkExit 1 "" ("Error: Command required" ++ nl)), w).
Proof.
  intros w rest.
  assert (H1 : opt_args (parse_options rest initial_options) = [])
    by reflexivity.
  assert (H2 : In "run" ["add"; "remove"; "run"; "install-cmd"; "clean-files"])
    by (simpl; tauto).
  split; [exact H1|]. split; [exact H2|].
  exact (@missing_argument_is_refused disk "uvstart-engine" "run" rest w H1 H2).
Defined.

Lemma lookup_commands_witness :
  let w := boot (uv_project chatty_success) in
  opt_args (parse_options ["conda"] initial_options) = ["conda"] /\
  main ["uvstart-engine"; "install-cmd"; "conda"] w
  = (Ok (mkExit 1 "" ("Error: Unknown backend: conda" ++ nl)), w) /\
  main ["uvstart-engine"; "clean-files"; "conda"] w
  = (Ok (mkExit 0 "" ""), w).
Proof.
  intros w.
  assert (H : opt_args (parse_options ["conda"] initial_options) = ["conda"])
    by reflexivity.
  split; [exact H|].
  exact (@lookup_commands disk "uvstart-engine" "conda" ["conda"] [] w H).
Defined.

Lemma informational_commands_witness :
  let w := boot (uv_project chatty_success) in
  calm (env w) /\
  exists evs,
    main ["uvstart-engine"; "detect"; "--backend"; "poetry"] w
    = (Ok (mkExit 0 ("uv" ++ nl) ""), mkWorld (env w) (trace w ++ evs)%list) /\
    popen_calls evs = [] /\ remove_calls evs = [].
Proof.
  intros w.
  assert (H : calm (env w)) by apply disk_calm.
  split; [exact H|].
  exact (proj2 (@informational_commands disk "uvstart-engine"
                  ["--backend"; "poetry"] w) H).
Defined.

(* ================================================================= *)
(** ** The queries of a detection *)

Lemma take_until_app {A} (test : A -> bool) (l1 l2 : list A) :
  take_until test (l1 ++ l2)
  = if existsb test l1 then take_until test l1
    else (l1 ++ take_until test l2)%list.
Proof.
  induction l1 as [|x l1 IH]; [reflexivity|].
  cbn [app take_until existsb]. destruct (test x); [reflexivity|].
  cbn [orb]. rewrite IH. now destruct (existsb test l1).
Qed.

Lemma take_until_none {A} (test : A -> bool) (l : list A) :
  existsb test l = false -> take_until test l = l.
Proof.
  induction l as [|x l IH]; [reflexivity|].
  cbn [existsb take_until]. destruct (test x); [discriminate|].
  intros H. now rewrite IH.
Qed.

Section DetectionQueries.

Context {P : Platform}.
Variable this : Engine.

Lemma detect_by_files_queries (e : Env P) (nm : string) (files : list string) :
  calm e ->
  forall w, env w = e ->
    snd (detect_by_files this nm files w)
    = mkWorld (env w)
        (trace w ++ map (status_query this) (take_until (present this e) files))%list.
Proof.
  intros Hcalm. induction files as [|file files IH]; intros w Hw.
  - cbn. now rewrite app_nil_r, world_eta.
  - cbn [detect_by_files take_until map]. unfold bind.
    rewrite (@file_exists_calm P this e file w Hcalm Hw).
    destruct (present this e file).
    + reflexivity.
    + rewrite IH by exact Hw. cbn [env trace]. now rewrite <- app_assoc.
Qed.

Lemma first_pass_queries (e : Env P) (backends : BackendRegistry) :
  calm e ->
  forall w, env w = e ->
    snd (first_pass this backends w)
    = mkWorld (env w)
        (trace w ++ map (status_query this) (take_until (present this e)
                                 (detection_files_in_order backends)))%list.
Proof.
  intros Hcalm. induction backends as [|[nm config] backends IH]; intros w Hw.
  - cbn. now rewrite app_nil_r, world_eta.
  - cbn [first_pass detection_files_in_order flat_map snd]. unfold bind.
    pose proof (@detect_by_files_queries e nm (detection_files config) Hcalm
                  w Hw) as Hq.
    destruct (@detect_by_files_calm P this e nm (detection_files config)
                Hcalm w Hw) as (evs & Hrun & _).
    rewrite Hrun in Hq |- *. cbn [snd] in Hq. rewrite take_until_app.
    destruct (existsb (present this e) (detection_files config)) eqn:Hex.
    + exact Hq.
    + rewrite IH by exact Hw. cbn [env trace].
      injection Hq as Hq. rewrite Hq, (take_until_none _ _ Hex).
      now rewrite map_app, <- app_assoc.
Qed.

(** X20. The file-system calls of a detection, when no status query
    throws: the detection files are queried in the order of the map and
    of each descriptor, and the queries stop at the first file that
    exists; only when none exists is the manifest queried, and read if
    it exists.  Nothing else is called. *)
Theorem detection_stops_at_first_hit (w : World P) :
  calm (env w) ->
  snd (detect_backend this w)
  = mkWorld (env w) (trace w ++ detection_events this (env w))%list.
Proof.
  intros Hcalm. unfold detect_backend, get_all_backends, bind, detection_events.
  pose proof (@first_pass_queries (env w) (registry_ this) Hcalm w eq_refl)
    as Hq.
  destruct (@first_pass_calm P this (env w) (registry_ this) Hcalm w eq_refl)
    as (evs & Hrun & _).
  rewrite Hrun in Hq |- *. cbn [snd] in Hq.
  assert (Hfind : forall backends,
    existsb (present this (env w)) (detection_files_in_order backends)
    = match List.find (file_signal this (env w)) backends with
      | Some _ => true
      | None => false
      end).
  { induction backends as [|[nm config] backends IH]; [reflexivity|].
    cbn [detection_files_in_order flat_map snd List.find].
    rewrite existsb_app. unfold file_signal at 1. cbn [snd].
    destruct (existsb (present this (env w)) (detection_files config));
      [reflexivity | exact IH]. }
  rewrite Hfind.
  destruct (List.find (file_signal this (env w)) (registry_ this))
    as [entry|]; cbn [option_map].
  - cbn [snd]. rewrite Hq. now rewrite app_nil_r.
  - change (project_path_ this ++ "/pyproject.toml")
      with (project_path_ this ++ "/" ++ "pyproject.toml").
    rewrite (@file_exists_calm P this (env w) "pyproject.toml" (mkWorld _ _)
               Hcalm eq_refl).
    cbn [env trace]. injection Hq as Hq. rewrite Hq.
    destruct (present this (env w) "pyproject.toml").
    + unfold read_file, fs_slurp, bind, log, ret. cbn [env trace].
      destruct (sys_slurp P (env w) (project_path_ this ++ "/" ++ "pyproject.toml"));
        cbn [snd]; now rewrite <- !app_assoc.
    + cbn [snd]. now rewrite <- app_assoc.
Qed.

End DetectionQueries.

Lemma detection_stops_at_first_hit_witness :
  let this := Engine_new "." in
  let w := boot (two_locks_project chatty_success) in
  calm (env w) /\
  trace (snd (detect_backend this w))
  = [EvExists "./hatch.lock"; EvExists "./pdm.lock"].
Proof.
  intros this w.
  assert (H : calm (env w)) by apply disk_calm.
  split; [exact H|].
  rewrite (@detection_stops_at_first_hit disk this w H). reflexivity.
Defined.

(* ================================================================= *)
(** ** How far the quoting of the command string goes *)

Lemma found_char (c : ascii) (s : string) :
  found (String c "") s = has_char c s.
Proof.
  unfold found, find. induction s as [|x s IH]; [reflexivity|].
  cbn [has_char index].
  destruct (prefix (String c "") (String x s)) eqn:Hp.
  - apply prefix_correct in Hp. cbn in Hp. injection Hp as -> _.
    now rewrite Ascii.eqb_refl.
  - destruct (Ascii.eqb_spec x c) as [->|Hne].
    + exfalso. assert (H : prefix (String c "") (String c s) = true).
      { apply prefix_correct. cbn. now destruct s. }
      congruence.
    + cbn [orb]. rewrite <- IH.
      now destruct (index 0 (String c "") s).
Qed.

(** Where a text that is free of [stop] ends, when what follows is
    nothing or begins with [stop]. *)
Lemma split_at_stop (stop : ascii) : forall a b s1 s2 : string,
  has_char stop a = false -> has_char stop b = false ->
  (s1 = "" \/ exists s, s1 = String stop s) ->
  (s2 = "" \/ exists s, s2 = String stop s) ->
  a ++ s1 = b ++ s2 -> a = b /\ s1 = s2.
Proof.
  induction a as [|x a IH]; intros [|y b] s1 s2 Ha Hb Hs1 Hs2 Heq;
    cbn [append has_char] in *.
  - auto.
  - exfalso. apply orb_false_elim in Hb as [Hy _].
    destruct Hs1 as [->|[s ->]]; [discriminate|].
    injection Heq as <- _. now rewrite Ascii.eqb_refl in Hy.
  - exfalso. apply orb_false_elim in Ha as [Hx _].
    destruct Hs2 as [->|[s ->]]; [discriminate|].
    injection Heq as -> _. now rewrite Ascii.eqb_refl in Hx.
  - apply orb_false_elim in Ha as [_ Ha].
    apply orb_false_elim in Hb as [_ Hb].
    injection Heq as -> Heq.
    destruct (IH b s1 s2 Ha Hb Hs1 Hs2 Heq) as [-> ->]. auto.
Qed.

(** What follows the first token in the command string. *)
Lemma rest_of_command (rest : list string) :
  let tail := String.concat "" (map (fun tok => " " ++ tok)
                                  (map quote_token rest)) in
  tail = "" \/ exists s, tail = String " "%char s.
Proof.
  destruct rest as [|tok rest]; [now left|].
  right. cbn [map]. rewrite concat_empty_cons. eexists. reflexivity.
Qed.

Lemma first_token (t1 t2 s1 s2 : string) :
  quote_free t1 -> quote_free t2 ->
  (s1 = "" \/ exists s, s1 = String " "%char s) ->
  (s2 = "" \/ exists s, s2 = String " "%char s) ->
  quote_token t1 ++ s1 = quote_token t2 ++ s2 ->
  t1 = t2 /\ s1 = s2.
Proof.
  unfold quote_free, quote_token. rewrite !(found_char " "%char).
  intros Hq1 Hq2 Hs1 Hs2.
  assert (Hraw : forall t s s' rest,
    has_char "034"%char t = false ->
    (s = "" \/ exists s0, s = String " "%char s0) ->
    t ++ s = (dquote ++ s') ++ rest -> False).
  { intros [|x t] s s' rest Hq Hs Heq; cbn in Heq.
    - destruct Hs as [->|[s0 ->]]; discriminate.
    - injection Heq as -> _. cbn in Hq. discriminate. }
  destruct (has_char " "%char t1) eqn:H1; destruct (has_char " "%char t2) eqn:H2;
    intros Heq.
  - rewrite !append_assoc in Heq. cbn in Heq. injection Heq as Heq.
    destruct (@split_at_stop "034"%char t1 t2 (dquote ++ s1) (dquote ++ s2)
                Hq1 Hq2) as [-> Hs]; auto.
    + right. eexists. reflexivity.
    + right. eexists. reflexivity.
    + cbn in Hs. injection Hs as ->. auto.
  - exfalso. symmetry in Heq. exact (Hraw _ _ _ _ Hq2 Hs2 Heq).
  - exfalso. exact (Hraw _ _ _ _ Hq1 Hs1 Heq).
  - now apply (@split_at_stop " "%char).
Qed.

Lemma rest_of_command_injective (rest1 : list string) :
  forall rest2,
    Forall quote_free rest1 -> Forall quote_free rest2 ->
    String.concat "" (map (fun tok => " " ++ tok) (map quote_token rest1))
    = String.concat "" (map (fun tok => " " ++ tok) (map quote_token rest2)) ->
    rest1 = rest2.
Proof.
  induction rest1 as [|t1 rest1 IH]; intros [|t2 rest2] Hf1 Hf2 Heq.
  - reflexivity.
  - cbn [map] in Heq. rewrite concat_empty_cons in Heq. discriminate.
  - cbn [map] in Heq. rewrite concat_empty_cons in Heq. discriminate.
  - inversion Hf1; inversion Hf2; subst.
    cbn [map] in Heq. rewrite !concat_empty_cons in Heq.
    cbn in Heq. injection Heq as Heq.
    destruct (@first_token t1 t2 _ _ H1 H5 (rest_of_command rest1)
                (rest_of_command rest2) Heq) as [-> Htail].
    f_equal. now apply IH.
Qed.

(** X21. How far the quoting goes: two non-empty argument lists none of
    whose tokens contains a double quote have the same command string
    only if they are the same list.  Spaces inside tokens and empty
    tokens keep the token boundaries recognisable; a double quote inside
    a token is what does not. *)
Theorem command_string_separates_quote_free_lists (command1 command2 : list string) :
  command1 <> [] -> command2 <> [] ->
  Forall quote_free command1 -> Forall quote_free command2 ->
  cmd_str command1 = cmd_str command2 ->
  command1 = command2.
Proof.
  intros Hne1 Hne2 Hf1 Hf2. rewrite !cmd_str_concat.
  destruct command1 as [|t1 rest1]; [congruence|].
  destruct command2 as [|t2 rest2]; [congruence|].
  cbn [map]. rewrite !concat_space_cons. intros Heq.
  inversion Hf1; inversion Hf2; subst.
  destruct (@first_token t1 t2 _ _ H1 H5 (rest_of_command rest1)
              (rest_of_command rest2) Heq) as [-> Htail].
  f_equal. now apply rest_of_command_injective.
Qed.

Lemma command_string_separates_quote_free_lists_witness :
  let command := ["uv"; "run"; "my script.py"; ""] in
  let other := ["uv"; "run"; "my"; "script.py"] in
  command <> [] /\ other <> [] /\
  Forall quote_free command /\ Forall quote_free other /\
  cmd_str command = "uv run " ++ dquote ++ "my script.py" ++ dquote ++ " " /\
  command = command /\
  cmd_str command <> cmd_str other.
Proof.
  intros command other.
  assert (H1 : command <> []) by discriminate.
  assert (H2 : other <> []) by discriminate.
  assert (H3 : Forall quote_free command) by (repeat constructor).
  assert (H4 : Forall quote_free other) by (repeat constructor).
  repeat (split; [assumption|]).
  split; [reflexivity|]. split.
  - exact (command_string_separates_quote_free_lists H1 H1 H3 H3 eq_refl).
  - intros Heq.
    pose proof (command_string_separates_quote_free_lists H1 H2 H3 H4 Heq) as H.
    discriminate H.
Defined.

(* ================================================================= *)
(** ** The empty command *)

(** X8. With the built-in catalog the [Empty command] failure of
    [execute_command] is never the result of an operation: every
    delegating operation whose backend resolves to a registered id
    builds a non-empty argument list and starts exactly one subprocess,
    with the string of that list. *)
Theorem empty_command_is_unreachable {P : Platform} (path : string)
    (op : Operation) (backend : string) (w w' : World P)
    (r : OperationResult) :
  perform (Engine_new path) op backend w = (Ok r, w') ->
  r <> mkOperationResult false "" "Empty command" 1 /\
  (delegates op = true ->
   forall id w1 config,
     resolve_backend (Engine_new path) backend w = (Ok id, w1) ->
     id <> "" ->
     get_backend BackendRegistry_new id = Some config ->
     argument_list config op <> [] /\
     popen_calls (trace w')
     = (popen_calls (trace w1) ++ [cmd_str (argument_list config op)])%list).
Proof.
  intros Hrun. split.
  - intros Hr.
    destruct (@perform_result P (Engine_new path) op backend w w' r Hrun)
      as (id & w1 & _ & Hnone & Hunknown & Hknown).
    destruct id as [|c id].
    + rewrite (Hnone eq_refl) in Hr. discriminate Hr.
    + assert (Hid : String c id <> "") by discriminate.
      cbn [registry_ Engine_new] in Hunknown, Hknown.
      destruct (get_backend BackendRegistry_new (String c id))
        as [config|] eqn:Hget.
      * specialize (Hknown config Hid eq_refl).
        destruct (delegates op) eqn:Hop.
        -- pose proof (argument_list_nonempty op
                         (proj2 (default_descriptor_complete _ Hget)) Hop)
             as Hargs.
           destruct (argument_list config op) as [|tok rest]; [congruence|].
           destruct (fst (sys_popen P (env w1) (cmd_str (tok :: rest))))
             as [[chunks status]|].
           ++ rewrite Hknown in Hr. injection Hr as Hs Ho He Hc.
              rewrite Hs, Ho in He. discriminate He.
           ++ rewrite Hknown in Hr. discriminate Hr.
        -- cbv zeta in Hknown. destruct Hknown as [Hk _].
           rewrite Hk in Hr. discriminate Hr.
      * rewrite (Hunknown Hid eq_refl) in Hr. discriminate Hr.
  - intros Hop id w1 config Hres Hid Hget.
    pose proof (argument_list_nonempty op
                  (proj2 (default_descriptor_complete _ Hget)) Hop) as Hargs.
    split; [exact Hargs|].
    rewrite (@perform_resolved P (Engine_new path) op backend id config w w1
               Hop Hres Hid Hget) in Hrun.
    destruct (@execute_command_popen P (argument_list config op) w1 Hargs)
      as (r0 & e & Hexec).
    rewrite Hexec in Hrun. injection Hrun as _ <-. cbn [trace].
    now rewrite popen_calls_app.
Qed.

Lemma empty_command_is_unreachable_witness :
  let this := Engine_new "." in
  let w := boot (uv_project no_shell) in
  let r := mkOperationResult false "" "Failed to execute command" 1 in
  perform this OpList "" w = (Ok r, snd (perform this OpList "" w)) /\
  r <> mkOperationResult false "" "Empty command" 1 /\
  delegates OpList = true /\
  resolve_backend this "" w = (Ok "uv", snd (resolve_backend this "" w)) /\
  "uv" <> "" /\
  get_backend BackendRegistry_new "uv" = Some uv_config /\
  popen_calls (trace (snd (perform this OpList "" w))) = ["uv pip list"].
Proof.
  intros this w r.
  assert (Hrun : perform this OpList "" w
                 = (Ok r, snd (perform this OpList "" w))) by reflexivity.
  assert (Hop : delegates OpList = true) by reflexivity.
  assert (Hres : resolve_backend this "" w
                 = (Ok "uv", snd (resolve_backend this "" w))) by reflexivity.
  assert (Hid : "uv" <> "") by discriminate.
  assert (Hget : get_backend BackendRegistry_new "uv" = Some uv_config)
    by reflexivity.
  destruct (@empty_command_is_unreachable disk "." OpList "" w _ r Hrun)
    as [Hnot Hone].
  split; [exact Hrun|]. split; [exact Hnot|]. split; [exact Hop|].
  split; [exact Hres|]. split; [exact Hid|]. split; [exact Hget|].
  rewrite (proj2 (Hone Hop "uv" _ uv_config Hres Hid Hget)). reflexivity.
Defined.
